(** * Verification of the dashboard shell widgets

    Two components are modelled:
    - [Checkbox], the checkbox control;
    - [DetailText] ([shell/components/DetailText.vue]).

    JavaScript values are embedded as a small tagged union, arrays live in
    an explicit store so that aliasing and in-place mutation are visible,
    and the event handler is written in a state monad over that store. *)

From Stdlib Require Import ZArith List Bool Ascii String Lia Permutation.
From Stdlib Require Import Floats.SpecFloat.
From Stdlib Require Import QArith.
From stdpp Require Import base option list gmap strings.

Local Open Scope string_scope.
Local Open Scope list_scope.
Local Open Scope stdpp_scope.

(** ** JavaScript values *)

Module Js.

(** Array references. *)
Definition loc := positive.

(** Primitive values. Numbers are IEEE-754 values in the specification
    format of the standard library ([spec_float]). *)
Inductive prim : Type :=
| Undefined
| Null
| Bool (b : bool)
| Num (n : spec_float)
| Str (s : string).

(** A value is a primitive or a reference to an array in the store. *)
Inductive value : Type :=
| Prim (p : prim)
| Arr (l : loc).

Coercion Prim : prim >-> value.

(** [a === b] on primitives: no conversion, numbers compared as IEEE
    numbers (so [NaN !== NaN] and [+0 === -0]). *)
Definition prim_strict_eq (a b : prim) : bool :=
  match a, b with
  | Undefined, Undefined => true
  | Null, Null => true
  | Bool x, Bool y => Bool.eqb x y
  | Num x, Num y => SFeqb x y
  | Str x, Str y => String.eqb x y
  | _, _ => false
  end.

(** [a === b]: arrays are compared by identity. *)
Definition strict_eq (a b : value) : bool :=
  match a, b with
  | Prim x, Prim y => prim_strict_eq x y
  | Arr l1, Arr l2 => Pos.eqb l1 l2
  | _, _ => false
  end.

(** ToBoolean. *)
Definition num_truthy (n : spec_float) : bool :=
  match n with
  | S754_zero _ | S754_nan => false
  | _ => true
  end.

Definition prim_truthy (p : prim) : bool :=
  match p with
  | Undefined | Null => false
  | Bool b => b
  | Num n => num_truthy n
  | Str s => negb (String.eqb s "")
  end.

Definition truthy (v : value) : bool :=
  match v with
  | Prim p => prim_truthy p
  | Arr _ => true
  end.

(** A string-typed prop whose default is [null]. *)
Definition opt_truthy (o : option string) : bool :=
  match o with
  | Some s => negb (String.eqb s "")
  | None => false
  end.

(** The store of arrays. *)
Abbreviation heap := (gmap loc (list prim)).

Definition read (h : heap) (l : loc) : list prim := default [] (h !! l).

(** [Array.prototype.find] with the callback [v => v === x]. *)
Definition find_strict (x : prim) (l : list prim) : option prim :=
  List.find (fun v => prim_strict_eq v x) l.

End Js.

Export Js.

(** ** The handler monad

    A handler runs against a world made of the array store, the log of
    emitted component events, the log of DOM events dispatched on the root
    element, and the two flags of the DOM event being handled. *)

(** The object a handler passes to [new CustomEvent(type, init)]. *)
Record CustomEventInit := {
  init_bubbles : bool;
  init_cancelable : bool;
  init_shiftKey : bool;
  init_altKey : bool;
  init_ctrlKey : bool;
  init_metaKey : bool
}.

(** A DOM [CustomEvent]. *)
Record CustomEvent := {
  ce_type : string;
  ce_bubbles : bool;
  ce_cancelable : bool;
  ce_composed : bool;
  ce_detail : prim
}.

(** [new CustomEvent(type, init)]: the constructor reads the members
    [bubbles], [cancelable], [composed] and [detail] of its dictionary
    and no other; the two that are missing take their defaults. *)
Definition new_CustomEvent (type : string) (init : CustomEventInit) : CustomEvent :=
  {| ce_type := type;
     ce_bubbles := init_bubbles init;
     ce_cancelable := init_cancelable init;
     ce_composed := false;
     ce_detail := Null |}.

Record World := {
  w_heap : heap;
  w_emitted : list (string * value);
  w_dispatched : list CustomEvent;
  w_stopped : bool;
  w_prevented : bool
}.

Definition M (A : Type) : Type := World -> A * World.

#[global] Instance M_ret : MRet M := fun A a w => (a, w).

#[global] Instance M_bind : MBind M := fun A B f m w =>
  let (a, w') := m w in f a w'.

Definition get_heap : M heap := fun w => (w_heap w, w).

Definition put_heap (h : heap) : M unit := fun w =>
  (tt, {| w_heap := h; w_emitted := w_emitted w;
          w_dispatched := w_dispatched w;
          w_stopped := w_stopped w; w_prevented := w_prevented w |}).

(** [event.stopPropagation()] *)
Definition stopPropagation : M unit := fun w =>
  (tt, {| w_heap := w_heap w; w_emitted := w_emitted w;
          w_dispatched := w_dispatched w;
          w_stopped := true; w_prevented := w_prevented w |}).

(** [event.preventDefault()] *)
Definition preventDefault : M unit := fun w =>
  (tt, {| w_heap := w_heap w; w_emitted := w_emitted w;
          w_dispatched := w_dispatched w;
          w_stopped := w_stopped w; w_prevented := true |}).

(** [this.$emit(name, payload)] *)
Definition emit (name : string) (payload : value) : M unit := fun w =>
  (tt, {| w_heap := w_heap w; w_emitted := w_emitted w ++ [(name, payload)];
          w_dispatched := w_dispatched w;
          w_stopped := w_stopped w; w_prevented := w_prevented w |}).

(** [this.$el.dispatchEvent(ev)] *)
Definition dispatchEvent (ev : CustomEvent) : M unit := fun w =>
  (tt, {| w_heap := w_heap w; w_emitted := w_emitted w;
          w_dispatched := w_dispatched w ++ [ev];
          w_stopped := w_stopped w; w_prevented := w_prevented w |}).

(** lodash [cloneDeep]: primitives are returned as they are, an array is
    copied into a newly allocated array. The elements are primitives, so
    the copy of the elements is the elements themselves. *)
Definition cloneDeep (v : value) : M value :=
  match v with
  | Prim p => mret (Prim p)
  | Arr l =>
      h ← get_heap;
      let l' := fresh (dom h) in
      put_heap (<[l' := read h l]> h);;
      mret (Arr l')
  end.

(** Removal of the first element that is [===] to [x]. *)
Fixpoint remove_first (x : prim) (l : list prim) : list prim :=
  match l with
  | [] => []
  | v :: l' => if prim_strict_eq v x then l' else v :: remove_first x l'
  end.

(** Modelled from the spec: [removeObject] of [@shell/utils/array], a
    module outside the two components. The spec describes it as a generic
    remove-by-value operation on the collection, taken to remove one
    matching entry, the first occurrence. It works in place on the array
    it is given. *)
Definition removeObject (ary : value) (obj : prim) : M unit :=
  match ary with
  | Arr l => h ← get_heap; put_heap (<[l := remove_first obj (read h l)]> h)
  | Prim _ => mret tt
  end.

(** Modelled from the spec: [addObject] of [@shell/utils/array], a module
    outside the two components. The spec describes its effect as the
    collection with the object appended. It works in place on the array it
    is given. *)
Definition addObject (ary : value) (obj : prim) : M unit :=
  match ary with
  | Arr l => h ← get_heap; put_heap (<[l := read h l ++ [obj]]> h)
  | Prim _ => mret tt
  end.

(** Modelled from the spec: the constant [_VIEW] of
    [@shell/config/query-params], a module outside the two components; the
    spec calls it the read-only (view) mode. *)
Definition _VIEW : string := "view".

(** Modelled from the spec: the constant [_EDIT] of
    [@shell/config/query-params], the default of the [mode] prop. *)
Definition _EDIT : string := "edit".

(** ** The checkbox component *)

Module Checkbox.

(** The [tooltip] prop: [null], a string, or an object. *)
Inductive tooltip_t : Type :=
| TipNull
| TipStr (s : string)
| TipObj.

Definition tooltip_truthy (t : tooltip_t) : bool :=
  match t with
  | TipNull => false
  | TipStr s => negb (String.eqb s "")
  | TipObj => true
  end.

(** The props and data that the script reads, and the inherited
    [aria-describedby] attribute ([$attrs]). *)
Record t := {
  value : Js.value;
  disabled : bool;
  mode : string;
  tooltip : tooltip_t;
  tooltipKey : option string;
  valueWhenTrue : prim;
  descriptionKey : option string;
  description : option string;
  random12 : string;
  attrs_aria_describedby : option string
}.

(** [data()]: [random12] is what [generateRandomAlphaString(12)] returned
    when the component was created. *)
Definition describedById (this : t) : string :=
  "described-by-" +:+ random12 this.

(** The element an event was fired on; [href] is [undefined] on elements
    that have no such property. *)
Record Element := {
  tagName : string;
  href : option string
}.

Record Event := {
  target : Element;
  shiftKey : bool;
  altKey : bool;
  ctrlKey : bool;
  metaKey : bool
}.

Section Computed.

Variable this : t.

Definition ariaDescribedBy : option string :=
  let inheritedDescribedBy := attrs_aria_describedby this in
  let internalDescribedBy :=
    if opt_truthy (descriptionKey this) || opt_truthy (description this)
    then Some (describedById this) else None in
  if opt_truthy inheritedDescribedBy && opt_truthy internalDescribedBy then
    match inheritedDescribedBy, internalDescribedBy with
    | Some a, Some b => Some (a +:+ " " +:+ b)
    | _, _ => None
    end
  else if opt_truthy inheritedDescribedBy || opt_truthy internalDescribedBy then
    if opt_truthy inheritedDescribedBy then inheritedDescribedBy
    else internalDescribedBy
  else None.

Definition isDisabled : bool :=
  disabled this || String.eqb (mode this) _VIEW.

Definition hasTooltip : bool :=
  tooltip_truthy (tooltip this) || opt_truthy (tooltipKey this).

Definition isMulti (v : Js.value) : bool :=
  match v with
  | Arr _ => true
  | Prim _ => false
  end.

Definition isString (p : prim) : bool :=
  match p with
  | Str _ => true
  | _ => false
  end.

(** [value.find((v) => v === this.valueWhenTrue) || false] *)
Definition findTrueValues (arr : list prim) : prim :=
  match find_strict (valueWhenTrue this) arr with
  | Some v => if prim_truthy v then v else Bool false
  | None => Bool false
  end.

(** The computed [isChecked]; it reads the array behind [value]. *)
Definition isChecked (h : heap) : prim :=
  match value this with
  | Arr l => findTrueValues (read h l)
  | Prim p => Bool (prim_strict_eq p (valueWhenTrue this))
  end.

(** The [checked] flag as the template and the handler use it. *)
Definition checked (h : heap) : bool := prim_truthy (isChecked h).

(** [clicked(event)]: [Some true] is [return true], [None] is a plain
    [return]. *)
Definition clicked (event : Event) : M (option bool) :=
  if String.eqb (tagName (target event)) "A" && opt_truthy (href (target event))
  then mret (Some true)
  else
    stopPropagation;;
    preventDefault;;
    if isDisabled then mret None
    else
      let customEvent := {| init_bubbles := true;
                            init_cancelable := false;
                            init_shiftKey := shiftKey event;
                            init_altKey := altKey event;
                            init_ctrlKey := ctrlKey event;
                            init_metaKey := metaKey event |} in
      let click := new_CustomEvent "click" customEvent in
      v ← cloneDeep (value this);
      if isMulti v then
        h ← get_heap;
        (if checked h
         then removeObject v (valueWhenTrue this)
         else addObject v (valueWhenTrue this));;
        emit "update:value" v;;
        mret None
      else if isString (valueWhenTrue this) then
        h ← get_heap;
        (if checked h
         then emit "update:value" Null
         else emit "update:value" (valueWhenTrue this));;
        mret None
      else
        emit "update:value" (Bool (negb (truthy v)));;
        dispatchEvent click;;
        mret None.

End Computed.

(** The two conditions under which an activation does not toggle. *)
Definition is_link (e : Element) : bool :=
  String.eqb (tagName e) "A" && opt_truthy (href e).

Definition suppressed (this : t) (event : Event) : bool :=
  is_link (target event) || isDisabled this.

(** A world in which nothing has happened yet. *)
Definition init (h : heap) : World :=
  {| w_heap := h; w_emitted := []; w_dispatched := [];
     w_stopped := false; w_prevented := false |}.

(** The props of a checkbox with every optional prop at its default. *)
Definition with_value (v : Js.value) (vwt : prim) : t :=
  {| value := v; disabled := false; mode := _EDIT; tooltip := TipNull;
     tooltipKey := None; valueWhenTrue := vwt; descriptionKey := None;
     description := None; random12 := "abcdefghijkl";
     attrs_aria_describedby := None |}.

Definition click_on (tag : string) (h : option string) : Event :=
  {| target := {| tagName := tag; href := h |};
     shiftKey := false; altKey := false; ctrlKey := false; metaKey := false |}.

(** The world after a handler that went past the link test: both event
    flags are set, [out] was emitted and [evs] dispatched. *)
Definition world_after (w : World) (h : heap) (out : list (string * Js.value))
    (evs : list CustomEvent) : World :=
  {| w_heap := h; w_emitted := w_emitted w ++ out;
     w_dispatched := w_dispatched w ++ evs;
     w_stopped := true; w_prevented := true |}.

(** The array the handler emits for a collection. *)
Definition toggled_array (this : t) (h : heap) (l : loc) : list prim :=
  if checked this h
  then remove_first (valueWhenTrue this) (read h l)
  else read h l ++ [valueWhenTrue this].

(** The primitive the handler emits for a scalar. *)
Definition toggled_prim (this : t) (h : heap) (p : prim) : prim :=
  if isString (valueWhenTrue this)
  then (if checked this h then Null else valueWhenTrue this)
  else Bool (negb (prim_truthy p)).

(** The same checkbox in the view mode. *)
Definition in_view_mode (this : t) : t :=
  {| value := value this; disabled := disabled this; mode := _VIEW;
     tooltip := tooltip this; tooltipKey := tooltipKey this;
     valueWhenTrue := valueWhenTrue this;
     descriptionKey := descriptionKey this; description := description this;
     random12 := random12 this;
     attrs_aria_describedby := attrs_aria_describedby this |}.

(** The same checkbox with a tooltip, a description and an inherited
    [aria-describedby]. *)
Definition described (this : t) (tip : tooltip_t) (desc inherited : option string) : t :=
  {| value := value this; disabled := disabled this; mode := mode this;
     tooltip := tip; tooltipKey := tooltipKey this;
     valueWhenTrue := valueWhenTrue this;
     descriptionKey := descriptionKey this; description := desc;
     random12 := random12 this;
     attrs_aria_describedby := inherited |}.

(** The owner of the component feeds a proposal back as the new [value]. *)
Definition set_value (this : t) (v : Js.value) : t :=
  {| value := v; disabled := disabled this; mode := mode this;
     tooltip := tooltip this; tooltipKey := tooltipKey this;
     valueWhenTrue := valueWhenTrue this;
     descriptionKey := descriptionKey this; description := description this;
     random12 := random12 this;
     attrs_aria_describedby := attrs_aria_describedby this |}.

(** What the component receives for a [value] the owner passes: the prop
    is declared with the types [Boolean, Array, String] and the default
    [false], so the framework replaces [undefined] by the default and
    casts the empty string and the name of the prop to [true]. *)
Definition resolve_prim (p : prim) : prim :=
  match p with
  | Undefined => Bool false
  | Str s => if String.eqb s "" || String.eqb s "value" then Bool true else p
  | _ => p
  end.

Definition resolve_value_prop (v : Js.value) : Js.value :=
  match v with
  | Prim p => Prim (resolve_prim p)
  | Arr l => Arr l
  end.

Definition feed (this : t) (proposals : list (string * Js.value)) : t :=
  match List.last (List.map (fun e => Some (snd e)) proposals) None with
  | Some v => set_value this (resolve_value_prop v)
  | None => this
  end.

(** One activation: the handler runs in a world where nothing has happened
    yet, and the owner applies what was emitted. The result is the
    component as re-rendered, the store, and the proposals. *)
Definition toggle (event : Event) (s : t * heap) : t * heap * list Js.value :=
  let w' := snd (clicked (fst s) event (init (snd s))) in
  (feed (fst s) (w_emitted w'), w_heap w', List.map snd (w_emitted w')).


(** A sequence of activations; the proposals are collected in order. *)
Fixpoint toggles (events : list Event) (s : t * heap) : t * heap * list Js.value :=
  match events with
  | [] => (s, [])
  | e :: events' =>
      let '(s1, out1) := toggle e s in
      let '(s2, out2) := toggles events' s1 in
      (s2, out1 ++ out2)
  end.


(** The value is a JavaScript boolean. *)
Definition is_boolean (v : Js.value) : Prop := exists b : bool, v = Prim (Bool b).


(** A sentinel the [value] prop hands over as it is. *)
Definition kept_by_prop (x : prim) : bool :=
  match x with
  | Str s => negb (String.eqb s "" || String.eqb s "value")
  | Undefined => false
  | _ => true
  end.



(** The [aria-describedby] attribute as the specification words it: the
    internal id takes part when a description or a tooltip is present. *)
Definition ariaDescribedBy_as_specified (this : t) : option string :=
  let inherited := attrs_aria_describedby this in
  let internal :=
    if opt_truthy (descriptionKey this) || opt_truthy (description this)
       || hasTooltip this
    then Some (describedById this) else None in
  match opt_truthy inherited, inherited, internal with
  | true, Some a, Some b => Some (a +:+ " " +:+ b)
  | true, Some a, None => Some a
  | _, _, Some b => Some b
  | _, _, None => None
  end.

(** *** What the template binds *)

(** [:aria-checked="!!value"] on the visible checkbox. *)
Definition ariaChecked (this : t) : bool := truthy (value this).

(** The label props ([alternateLabel] is [undefined] by default), whether
    the parent fills the [label] slot, and the string
    [generateRandomAlphaString(12)] returned for [idForLabel]. *)
Record labelling := {
  label : option string;
  labelKey : option string;
  alternateLabel : option string;
  slot_label : bool;
  random_label : string
}.

Definition replacementLabel (lab : labelling) : option string :=
  if negb (opt_truthy (label lab)) && negb (opt_truthy (labelKey lab))
     && opt_truthy (alternateLabel lab)
  then alternateLabel lab
  else None.

Definition idForLabel (lab : labelling) : string :=
  random_label lab +:+ "-checkbox-label".

(** [:aria-labelledby="labelKey || label ? idForLabel : undefined"] *)
Definition ariaLabelledby (lab : labelling) : option string :=
  if opt_truthy (labelKey lab) || opt_truthy (label lab)
  then Some (idForLabel lab) else None.

(** An element of the template that carries an [id]: the translated text
    of a key, or a literal text. *)
Inductive identified : Type :=
| Translated (id key : string)
| Literal (id text : string).

Definition id_of (e : identified) : string :=
  match e with
  | Translated id _ => id
  | Literal id _ => id
  end.

Definition text_of (o : option string) : string := default "" o.

(** The description block: [None] when the outer [div] is not rendered,
    otherwise the element inside it, if any. *)
Definition description_block (this : t) : option (option identified) :=
  if opt_truthy (descriptionKey this) || opt_truthy (description this) then
    Some (if opt_truthy (descriptionKey this)
          then Some (Translated (describedById this) (text_of (descriptionKey this)))
          else if opt_truthy (description this)
          then Some (Literal (describedById this) (text_of (description this)))
          else None)
  else None.

(** The element with [idForLabel] inside the label [span]: the [span] is
    rendered for a slot, a label, a label key or a tooltip; the default
    content of the slot, which holds the element, is rendered when the
    parent does not fill the slot. *)
Definition label_element (this : t) (lab : labelling) : option identified :=
  if slot_label lab || opt_truthy (label lab) || opt_truthy (labelKey lab)
     || hasTooltip this
  then
    if slot_label lab then None
    else if opt_truthy (labelKey lab)
    then Some (Translated (idForLabel lab) (text_of (labelKey lab)))
    else if opt_truthy (label lab)
    then Some (Literal (idForLabel lab) (text_of (label lab)))
    else None
  else None.

(** The activations of a sequence that are not suppressed. *)
Definition effective (this : t) (events : list Event) : nat :=
  List.length (List.filter (fun e => negb (suppressed this e)) events).

(** A scalar value with a string sentinel that the [value] prop keeps, or
    a boolean value with a boolean sentinel. *)
Definition scalar_toggle (this : t) : bool :=
  match value this, valueWhenTrue this with
  | Prim _, Str s => kept_by_prop (Str s)
  | Prim (Bool _), Bool _ => true
  | _, _ => false
  end.

(** The [click] event the handler builds, whatever the activation. *)
Definition click_event : CustomEvent :=
  {| ce_type := "click"; ce_bubbles := true; ce_cancelable := false;
     ce_composed := false; ce_detail := Null |}.

End Checkbox.

(** ** A reference JSON reader

    [DetailText] calls the host's [JSON.parse] and [JSON.stringify]. The
    component is modelled over an arbitrary JSON engine; this module gives
    a concrete one, a recursive-descent reader of the JSON grammar
    (ECMA-404) that returns the syntax tree of the text, so that concrete
    inputs can be evaluated. Strings are sequences of code units below
    256; string and number lexemes are kept as they are written. *)

Module JSON.

Local Unset Elimination Schemes.

Inductive json : Type :=
| JNull
| JBool (b : bool)
| JNumber (lexeme : string)
| JString (raw : string)
| JArray (items : list json)
| JObject (members : list (string * json)).

Local Set Elimination Schemes.

(** The outcome of reading a prefix of the input. [SyntaxError] is the
    exception [JSON.parse] throws. *)
Inductive result (A : Type) : Type :=
| Ok (a : A) (rest : string)
| SyntaxError
| OutOfFuel.

Arguments Ok {A} a rest.
Arguments SyntaxError {A}.
Arguments OutOfFuel {A}.

Definition is_ws (c : ascii) : bool :=
  let n := nat_of_ascii c in
  Nat.eqb n 32 || Nat.eqb n 9 || Nat.eqb n 10 || Nat.eqb n 13.

Definition is_digit (c : ascii) : bool :=
  let n := nat_of_ascii c in Nat.leb 48 n && Nat.leb n 57.

Definition is_hex (c : ascii) : bool :=
  let n := nat_of_ascii c in
  is_digit c || (Nat.leb 65 n && Nat.leb n 70) || (Nat.leb 97 n && Nat.leb n 102).

(** The double quote. *)
Definition quote : ascii := Eval cbv in ascii_of_nat 34.

Definition is_simple_escape (c : ascii) : bool :=
  Ascii.eqb c quote || Ascii.eqb c "\" || Ascii.eqb c "/" || Ascii.eqb c "b"
  || Ascii.eqb c "f" || Ascii.eqb c "n" || Ascii.eqb c "r" || Ascii.eqb c "t".

Fixpoint skip_ws (s : string) : string :=
  match s with
  | String c r => if is_ws c then skip_ws r else s
  | EmptyString => EmptyString
  end.

(** The characters of a string literal after its opening quote, up to the
    closing quote. *)
Fixpoint read_chars (s : string) : option (string * string) :=
  match s with
  | EmptyString => None
  | String c r =>
      if Ascii.eqb c quote then Some (EmptyString, r)
      else if Ascii.eqb c "\" then
        match r with
        | String e r' =>
            if is_simple_escape e then
              match read_chars r' with
              | Some (body, rest) => Some (String c (String e body), rest)
              | None => None
              end
            else if Ascii.eqb e "u" then
              match r' with
              | String h1 (String h2 (String h3 (String h4 r''))) =>
                  if is_hex h1 && is_hex h2 && is_hex h3 && is_hex h4 then
                    match read_chars r'' with
                    | Some (body, rest) =>
                        Some (String c (String e (String h1 (String h2
                               (String h3 (String h4 body))))), rest)
                    | None => None
                    end
                  else None
              | _ => None
              end
            else None
        | EmptyString => None
        end
      else if Nat.ltb (nat_of_ascii c) 32 then None
      else
        match read_chars r with
        | Some (body, rest) => Some (String c body, rest)
        | None => None
        end
  end.

(** The longest prefix of digits, and what follows it. *)
Fixpoint span_digits (s : string) : string * string :=
  match s with
  | String c r =>
      if is_digit c then
        let (ds, rest) := span_digits r in (String c ds, rest)
      else (EmptyString, s)
  | EmptyString => (EmptyString, EmptyString)
  end.

(** [int]: a zero, or a non-zero digit followed by digits. *)
Definition read_int (s : string) : option (string * string) :=
  match s with
  | String c r =>
      if Ascii.eqb c "0" then Some (String c EmptyString, r)
      else if is_digit c then
        let (ds, rest) := span_digits r in Some (String c ds, rest)
      else None
  | EmptyString => None
  end.

Definition read_frac (s : string) : option (string * string) :=
  match s with
  | String c r =>
      if Ascii.eqb c "." then
        match span_digits r with
        | (EmptyString, _) => None
        | (ds, rest) => Some (String c ds, rest)
        end
      else Some (EmptyString, s)
  | EmptyString => Some (EmptyString, s)
  end.

Definition read_exp (s : string) : option (string * string) :=
  match s with
  | String c r =>
      if Ascii.eqb c "e" || Ascii.eqb c "E" then
        let (sign, r1) :=
          match r with
          | String g r' =>
              if Ascii.eqb g "+" || Ascii.eqb g "-"
              then (String g EmptyString, r') else (EmptyString, r)
          | EmptyString => (EmptyString, r)
          end in
        match span_digits r1 with
        | (EmptyString, _) => None
        | (ds, rest) => Some (String c (sign +:+ ds), rest)
        end
      else Some (EmptyString, s)
  | EmptyString => Some (EmptyString, s)
  end.

(** [number]: an optional minus, [int], an optional fraction, an optional
    exponent. *)
Definition read_number (s : string) : option (string * string) :=
  let (sign, r0) :=
    match s with
    | String c r => if Ascii.eqb c "-" then (String c EmptyString, r)
                    else (EmptyString, s)
    | EmptyString => (EmptyString, s)
    end in
  match read_int r0 with
  | None => None
  | Some (i, r1) =>
      match read_frac r1 with
      | None => None
      | Some (f, r2) =>
          match read_exp r2 with
          | None => None
          | Some (e, r3) => Some (sign +:+ i +:+ f +:+ e, r3)
          end
      end
  end.

(** [strip_prefix p s]: what follows [p] in [s], when [s] starts with [p]. *)
Fixpoint strip_prefix (p s : string) : option string :=
  match p, s with
  | EmptyString, _ => Some s
  | String a p', String b s' =>
      if Ascii.eqb a b then strip_prefix p' s' else None
  | String _ _, EmptyString => None
  end.

Definition read_literal (word : string) (v : json) (s : string) : result json :=
  match strip_prefix word s with
  | Some rest => Ok v rest
  | None => SyntaxError
  end.

(** [expect c s]: what follows the character [c] when [s] starts with it. *)
Definition expect (c : ascii) (s : string) : option string :=
  match s with
  | String c' r => if Ascii.eqb c' c then Some r else None
  | EmptyString => None
  end.

(** The three mutually recursive readers. [read_value] expects its input
    to start at the value; [read_elements] and [read_members] read what
    follows the opening bracket of a non-empty array or object. *)
Fixpoint read_value (fuel : nat) (s : string) : result json :=
  match fuel with
  | O => OutOfFuel
  | S fuel' =>
      match s with
      | EmptyString => SyntaxError
      | String c r =>
          if Ascii.eqb c "{" then
            match expect "}" (skip_ws r) with
            | Some rest => Ok (JObject []) rest
            | None =>
                match read_members fuel' (skip_ws r) with
                | Ok ms rest => Ok (JObject ms) rest
                | SyntaxError => SyntaxError
                | OutOfFuel => OutOfFuel
                end
            end
          else if Ascii.eqb c "[" then
            match expect "]" (skip_ws r) with
            | Some rest => Ok (JArray []) rest
            | None =>
                match read_elements fuel' (skip_ws r) with
                | Ok vs rest => Ok (JArray vs) rest
                | SyntaxError => SyntaxError
                | OutOfFuel => OutOfFuel
                end
            end
          else if Ascii.eqb c quote then
            match read_chars r with
            | Some (body, rest) => Ok (JString body) rest
            | None => SyntaxError
            end
          else if Ascii.eqb c "t" then read_literal "true" (JBool true) s
          else if Ascii.eqb c "f" then read_literal "false" (JBool false) s
          else if Ascii.eqb c "n" then read_literal "null" JNull s
          else
            match read_number s with
            | Some (lexeme, rest) => Ok (JNumber lexeme) rest
            | None => SyntaxError
            end
      end
  end

with read_elements (fuel : nat) (s : string) : result (list json) :=
  match fuel with
  | O => OutOfFuel
  | S fuel' =>
      match read_value fuel' s with
      | Ok v r =>
          match expect "," (skip_ws r) with
          | Some r' =>
              match read_elements fuel' (skip_ws r') with
              | Ok vs rest => Ok (v :: vs) rest
              | SyntaxError => SyntaxError
              | OutOfFuel => OutOfFuel
              end
          | None =>
              match expect "]" (skip_ws r) with
              | Some rest => Ok [v] rest
              | None => SyntaxError
              end
          end
      | SyntaxError => SyntaxError
      | OutOfFuel => OutOfFuel
      end
  end

with read_members (fuel : nat) (s : string) : result (list (string * json)) :=
  match fuel with
  | O => OutOfFuel
  | S fuel' =>
      match expect quote s with
      | Some r =>
          match read_chars r with
          | Some (key, r1) =>
              match expect ":" (skip_ws r1) with
              | Some r2 =>
                  match read_value fuel' (skip_ws r2) with
                  | Ok v r3 =>
                      match expect "," (skip_ws r3) with
                      | Some r4 =>
                          match read_members fuel' (skip_ws r4) with
                          | Ok ms rest => Ok ((key, v) :: ms) rest
                          | SyntaxError => SyntaxError
                          | OutOfFuel => OutOfFuel
                          end
                      | None =>
                          match expect "}" (skip_ws r3) with
                          | Some rest => Ok [(key, v)] rest
                          | None => SyntaxError
                          end
                      end
                  | SyntaxError => SyntaxError
                  | OutOfFuel => OutOfFuel
                  end
              | None => SyntaxError
              end
          | None => SyntaxError
          end
      | None => SyntaxError
      end
  end.

(** Fuel that is enough for a text of the given length. *)
Definition fuel_for (s : string) : nat := 2 * String.length s + 2.

(** The whole text: whitespace, one value, whitespace. *)
Definition read_text (s : string) : result json :=
  match read_value (fuel_for s) (skip_ws s) with
  | Ok v rest =>
      match skip_ws rest with
      | EmptyString => Ok v EmptyString
      | _ => SyntaxError
      end
  | SyntaxError => SyntaxError
  | OutOfFuel => OutOfFuel
  end.

(** A partial result is good for an input when it is not [OutOfFuel] and,
    when it is a value, what is left is shorter than the input. *)
Definition good {A : Type} (r : result A) (s : string) : Prop :=
  match r with
  | Ok _ rest => String.length rest < String.length s
  | SyntaxError => True
  | OutOfFuel => False
  end.

(** [JSON.parse]: [None] stands for the thrown [SyntaxError]. *)
Definition parse (s : string) : option json :=
  match read_text s with
  | Ok v _ => Some v
  | _ => None
  end.

(** A reference rendering with the layout of [JSON.stringify(v, null, 2)]:
    one member or item per line, two spaces per level. Lexemes are printed
    as they were read. *)
Fixpoint indent (depth : nat) : string :=
  match depth with
  | O => EmptyString
  | S d => "  " +:+ indent d
  end.

Definition newline : string := String (ascii_of_nat 10) EmptyString.

Fixpoint join (sep : string) (l : list string) : string :=
  match l with
  | [] => EmptyString
  | [x] => x
  | x :: l' => x +:+ sep +:+ join sep l'
  end.

Fixpoint render (depth : nat) (v : json) : string :=
  match v with
  | JNull => "null"
  | JBool true => "true"
  | JBool false => "false"
  | JNumber lexeme => lexeme
  | JString raw => String quote raw +:+ String quote EmptyString
  | JArray [] => "[]"
  | JArray items =>
      "[" +:+ newline +:+ indent (S depth) +:+
      join ("," +:+ newline +:+ indent (S depth))
           (List.map (render (S depth)) items) +:+
      newline +:+ indent depth +:+ "]"
  | JObject [] => "{}"
  | JObject members =>
      "{" +:+ newline +:+ indent (S depth) +:+
      join ("," +:+ newline +:+ indent (S depth))
           (List.map (fun m => String quote (fst m) +:+ String quote EmptyString
                               +:+ ": " +:+ render (S depth) (snd m))
                     members) +:+
      newline +:+ indent depth +:+ "}"
  end.

Definition stringify (v : json) : string := render 0 v.

End JSON.

(** ** The detail text component *)

(** A JavaScript Number by its value: not a number, an infinity, or a
    rational (every finite double is one). *)
Inductive number : Type :=
| NaN
| Infinity (negative : bool)
| Finite (q : Q).

Definition number_of_Z (z : Z) : number := Finite (inject_Z z).

(** The Number is the integer [z]. *)
Definition integral (n : number) (z : Z) : Prop :=
  match n with
  | Finite q => Qeq q (inject_Z z)
  | _ => False
  end.

(** [a < b] and [a <= b] on Numbers; a comparison with [NaN] is false. *)
Definition number_lt (a b : number) : bool :=
  match a, b with
  | NaN, _ | _, NaN => false
  | Infinity sa, Infinity sb => sa && negb sb
  | Infinity sa, Finite _ => sa
  | Finite _, Infinity sb => negb sb
  | Finite x, Finite y => negb (Qle_bool y x)
  end.

Definition number_le (a b : number) : bool :=
  match a, b with
  | NaN, _ | _, NaN => false
  | Infinity sa, Infinity sb => sa || negb sb
  | Infinity sa, Finite _ => sa
  | Finite _, Infinity sb => negb sb
  | Finite x, Finite y => Qle_bool x y
  end.

(** An integer or an infinity, and [ToIntegerOrInfinity]: [NaN] gives 0,
    a finite Number is truncated towards zero. *)
Inductive integer : Type :=
| NegInfinity
| Int (z : Z)
| PosInfinity.

Definition ToIntegerOrInfinity (n : number) : integer :=
  match n with
  | NaN => Int 0
  | Infinity true => NegInfinity
  | Infinity false => PosInfinity
  | Finite q => Int (Z.quot (Qnum q) (Zpos (Qden q)))
  end.

(** An argument of [slice] relative to a string of length [len]: a
    negative one counts from the end, and the result lies between 0 and
    [len]. *)
Definition relative_index (len : Z) (i : integer) : Z :=
  match i with
  | NegInfinity => 0
  | Int z => if (z <? 0)%Z then Z.max (len + z) 0 else Z.min z len
  | PosInfinity => len
  end.

(** [String.prototype.slice(start, end)], the arguments already turned
    into integers. *)
Definition slice (s : string) (first last : integer) : string :=
  let len := Z.of_nat (String.length s) in
  let from := relative_index len first in
  let to := relative_index len last in
  let span := Z.max (to - from) 0 in
  String.substring (Z.to_nat from) (Z.to_nat span) s.

(** [String.prototype.startsWith]. *)
Definition startsWith (s p : string) : bool := String.prefix p s.

(** The white space and line terminators [String.prototype.trim] removes,
    among the code units below 256. *)
Definition is_trim_space (c : ascii) : bool :=
  let n := nat_of_ascii c in
  (Nat.leb 9 n && Nat.leb n 13) || Nat.eqb n 32 || Nat.eqb n 160.

Fixpoint trimStart (s : string) : string :=
  match s with
  | String c r => if is_trim_space c then trimStart r else s
  | EmptyString => EmptyString
  end.

Fixpoint trimEnd (s : string) : string :=
  match s with
  | String c r =>
      match trimEnd r with
      | EmptyString => if is_trim_space c then EmptyString
                       else String c EmptyString
      | r' => String c r'
      end
  | EmptyString => EmptyString
  end.

Definition trim (s : string) : string := trimEnd (trimStart s).

Module DetailText.

(** The props the script reads. [maxLength] is a Number; [binary] is
    [null] (autodetect) unless it is given. *)
Record props := {
  value : string;
  maxLength : number;
  binary : option bool;
  conceal : bool;
  concealStandAlone : bool;
  monospace : bool;
  copy : bool
}.

(** The component's own reactive state. *)
Record state := {
  expanded : bool;
  standAloneHide : bool
}.

(** [data()] *)
Definition data (p : props) : state :=
  {| expanded :=
       number_le (number_of_Z (Z.of_nat (String.length (value p))))
                 (maxLength p);
     standAloneHide := true |}.

(** [expand()] *)
Definition expand (d : state) : state :=
  {| expanded := negb (expanded d); standAloneHide := standAloneHide d |}.

(** The click handler of the sensitive button:
    [standAloneHide = !standAloneHide]. *)
Definition toggleStandAloneHide (d : state) : state :=
  {| expanded := expanded d; standAloneHide := negb (standAloneHide d) |}.

Section Computed.

(** The collaborators: the i18n lookup [t(key, args, raw)], [asciiLike] of
    [@shell/utils/string], [binarySize] of [@shell/utils/crypto], the
    host's JSON engine ([None] is a thrown error, the second function is
    [JSON.stringify(v, null, 2)]), the getter [prefs/get] of the store and
    the key [HIDE_SENSITIVE] of [@shell/store/prefs]. *)
Variable i18n_t : string -> list (string * prim) -> bool -> string.
Variable asciiLike : string -> bool.
Variable binarySize : string -> prim.
Variable json : Type.
Variable JSON_parse : string -> option json.
Variable JSON_stringify : json -> string.
Variable prefs_get : string -> bool.
Variable HIDE_SENSITIVE : string.

Variable p : props.
Variable d : state.

(** [value] is a string, so the [typeof] test of the source holds. *)
Definition isBinary : bool :=
  match binary p with
  | None => negb (asciiLike (value p))
  | Some b => b
  end.

(** The length of the value rendered as a string, which it is. *)
Definition size : Z := Z.of_nat (String.length (value p)).

Definition isLong : bool := number_lt (maxLength p) (number_of_Z size).

Definition isEmpty : bool := (size =? 0)%Z.

Definition body : string :=
  if isBinary then
    i18n_t "detailText.binary"
      [("n", if negb (Nat.eqb (String.length (value p)) 0)
             then binarySize (value p) else Num (S754_zero false))]
      true
  else if expanded d then value p
  else slice (value p) (Int 0) (ToIntegerOrInfinity (maxLength p)).

Definition jsonStr : option string :=
  let value := value p in
  if negb (String.eqb value "") && (startsWith value "{" || startsWith value "[")
  then
    match JSON_parse value with
    | Some parsed => Some (JSON_stringify parsed)
    | None => None
    end
  else None.

Definition hideSensitiveData : bool :=
  if concealStandAlone p then standAloneHide d
  else prefs_get HIDE_SENSITIVE.

Definition concealed : bool :=
  conceal p && hideSensitiveData && negb isBinary.

Definition sensitiveIcon : string :=
  if standAloneHide d then "icon-show" else "icon-hide".

Definition sensitiveAria : string :=
  if standAloneHide d then i18n_t "detailText.sensitive.show" [] false
  else i18n_t "detailText.sensitive.hide" [] false.

(** The conditions of the template: the link that expands the text
    ([v-if="!isBinary && !jsonStr && isLong && !expanded"]), the sensitive
    button and the copy button. *)
Definition showMore : bool :=
  negb isBinary && negb (opt_truthy jsonStr) && isLong && negb (expanded d).

Definition showSensitive : bool := conceal p && concealStandAlone p.

Definition showCopy : bool := copy p && negb isBinary.

(** The JSON classification as the specification words it: the value,
    trimmed, starts with a brace or a bracket, and the value parses. *)
Definition isJson_as_specified : bool :=
  (startsWith (trim (value p)) "{" || startsWith (trim (value p)) "[")
  && match JSON_parse (value p) with Some _ => true | None => false end.

End Computed.

Section Actions.

Variable asciiLike : string -> bool.
Variable json : Type.
Variable JSON_parse : string -> option json.
Variable JSON_stringify : json -> string.
Variable p : props.

(** What the user can do: follow the link when it is shown, which calls
    [expand], and press the sensitive button when it is shown. *)
Inductive action : state -> state -> Prop :=
| act_expand (d : state) :
    showMore asciiLike json JSON_parse JSON_stringify p d = true ->
    action d (expand d)
| act_sensitive (d : state) :
    showSensitive p = true ->
    action d (toggleStandAloneHide d).

(** The states the component can be in. *)
Definition reachable (d : state) : Prop := rtc action (data p) d.

End Actions.

(** A text prop with the other props at their defaults and the binary
    detection switched off. *)
Definition text (v : string) (limit : Z) : props :=
  {| value := v; maxLength := number_of_Z limit; binary := Some false;
     conceal := false;
     concealStandAlone := false; monospace := true; copy := true |}.

(** The same props with another threshold. *)
Definition with_maxLength (p : props) (limit : number) : props :=
  {| value := value p; maxLength := limit; binary := binary p;
     conceal := conceal p; concealStandAlone := concealStandAlone p;
     monospace := monospace p; copy := copy p |}.

(** The same props with the conceal options set. *)
Definition sensitive (p : props) (standAlone : bool) : props :=
  {| value := value p; maxLength := maxLength p; binary := binary p;
     conceal := true; concealStandAlone := standAlone;
     monospace := monospace p; copy := copy p |}.

(** A text of [n] letters. *)
Definition filler (n : nat) : string :=
  string_of_list_ascii (List.repeat "x"%char n).

End DetailText.

(** * Properties *)

(** ** Strict equality and truthiness *)

Lemma SFeqb_truthy_eq (v x : spec_float) :
  num_truthy x = true -> SFeqb v x = true -> v = x.
Proof.
  unfold SFeqb, SFcompare.
  destruct v as [sv|sv| |sv mv ev], x as [sx|sx| |sx mx ex]; simpl;
    try discriminate; intros _.
  1, 2, 5: destruct sx; discriminate.
  - destruct sv, sx; intros H; try discriminate; reflexivity.
  - destruct sv; discriminate.
  - change (PosDef.Pos.compare_cont Eq mv mx) with (Pos.compare mv mx).
    destruct sv, sx; try discriminate;
      destruct (Z.compare_spec ev ex) as [-> | |]; try discriminate;
      destruct (Pos.compare_spec mv mx) as [-> | |]; simpl; try discriminate;
      reflexivity.
Qed.

Lemma SFeqb_truthy_refl (x : spec_float) :
  num_truthy x = true -> SFeqb x x = true.
Proof.
  unfold SFeqb, SFcompare.
  destruct x as [s|s| |s m e]; simpl; try discriminate; intros _.
  - destruct s; reflexivity.
  - change (PosDef.Pos.compare_cont Eq m m) with (Pos.compare m m).
    destruct s; rewrite Z.compare_refl, Pos.compare_refl; reflexivity.
Qed.

Lemma prim_strict_eq_truthy (v x : prim) :
  prim_truthy x = true -> prim_strict_eq v x = true -> v = x.
Proof.
  destruct v, x; simpl; try discriminate; intros Ht He.
  - apply Bool.eqb_prop in He. congruence.
  - f_equal. apply SFeqb_truthy_eq; assumption.
  - apply String.eqb_eq in He. congruence.
Qed.

Lemma prim_strict_eq_refl (x : prim) :
  prim_truthy x = true -> prim_strict_eq x x = true.
Proof.
  destruct x; simpl; try discriminate; intros Ht.
  - apply Bool.eqb_reflx.
  - apply SFeqb_truthy_refl; assumption.
  - apply String.eqb_refl.
Qed.

Lemma SFeqb_truthy_same (v x : spec_float) :
  SFeqb v x = true -> num_truthy v = num_truthy x.
Proof.
  unfold SFeqb, SFcompare.
  destruct v as [sv|sv| |sv mv ev], x as [sx|sx| |sx mx ex]; simpl;
    try reflexivity; try discriminate.
  1, 2: destruct sx; discriminate.
  all: destruct sv; discriminate.
Qed.

Lemma prim_strict_eq_truthy_same (v x : prim) :
  prim_strict_eq v x = true -> prim_truthy v = prim_truthy x.
Proof.
  destruct v, x; simpl; try discriminate; try reflexivity; intros He.
  - apply Bool.eqb_prop in He. exact He.
  - apply SFeqb_truthy_same, He.
  - apply String.eqb_eq in He. congruence.
Qed.

Lemma prim_strict_eq_iff (v x : prim) :
  prim_truthy x = true -> prim_strict_eq v x = true <-> v = x.
Proof.
  intros Ht. split.
  - apply prim_strict_eq_truthy; assumption.
  - intros ->. apply prim_strict_eq_refl; assumption.
Qed.

(** ** The checkbox *)

Module CheckboxProofs.

Import Checkbox.

Lemma find_strict_some (x v : prim) (l : list prim) :
  find_strict x l = Some v -> In v l /\ prim_strict_eq v x = true.
Proof. unfold find_strict. intros H. apply List.find_some in H. exact H. Qed.

Lemma find_strict_none (x : prim) (l : list prim) :
  find_strict x l = None -> forall v, In v l -> prim_strict_eq v x = false.
Proof.
  unfold find_strict. intros H v Hv.
  exact (List.find_none _ _ H v Hv).
Qed.


Lemma remove_first_absent (x : prim) (l : list prim) :
  find_strict x l = None -> remove_first x l = l.
Proof.
  unfold find_strict. induction l as [|v l IH]; simpl; [reflexivity|].
  destruct (prim_strict_eq v x); [discriminate|].
  intros H. f_equal. apply IH, H.
Qed.




(** ** The store under the handler's operations *)

Lemma read_insert_same (h : heap) (l : loc) (a : list prim) :
  read (<[l := a]> h) l = a.
Proof. unfold read. rewrite lookup_insert_eq. reflexivity. Qed.

Lemma read_insert_copy (h : heap) (l l' : loc) :
  read (<[l' := read h l]> h) l = read h l.
Proof.
  destruct (decide (l' = l)) as [-> | Hne].
  - apply read_insert_same.
  - unfold read at 1 3. rewrite lookup_insert_ne by assumption. reflexivity.
Qed.

Lemma fresh_not_in_heap (h : heap) : h !! fresh (dom h) = None.
Proof. apply not_elem_of_dom, is_fresh. Qed.

Lemma insert_fresh_subseteq (h : heap) (a : list prim) :
  h ⊆ <[fresh (dom h) := a]> h.
Proof. apply insert_subseteq, fresh_not_in_heap. Qed.

(** ** The handler, case by case *)

(** Runs the monadic operations of a handler on the world at hand. *)
Ltac run_handler :=
  cbv [mbind M_bind mret M_ret stopPropagation preventDefault get_heap
       put_heap emit dispatchEvent cloneDeep removeObject addObject isMulti];
  simpl.

Lemma clicked_link (this : t) (event : Event) (w : World) :
  is_link (target event) = true -> clicked this event w = (Some true, w).
Proof.
  unfold clicked, is_link. intros ->. reflexivity.
Qed.

Lemma clicked_disabled (this : t) (event : Event) (w : World) :
  is_link (target event) = false -> isDisabled this = true ->
  clicked this event w = (None, world_after w (w_heap w) [] []).
Proof.
  unfold clicked, is_link, world_after. intros -> ->.
  destruct w; simpl. rewrite !app_nil_r. reflexivity.
Qed.

Lemma checked_insert_copy (this : t) (h : heap) (l l' : loc) :
  value this = Arr l ->
  checked this (<[l' := read h l]> h) = checked this h.
Proof.
  unfold checked, isChecked. intros ->. rewrite read_insert_copy. reflexivity.
Qed.

Lemma checked_prim (this : t) (h : heap) (p : prim) :
  value this = Prim p ->
  checked this h = prim_strict_eq p (valueWhenTrue this).
Proof. unfold checked, isChecked. intros ->. reflexivity. Qed.

Lemma clicked_multi (this : t) (event : Event) (w : World) (l : loc) :
  suppressed this event = false -> value this = Arr l ->
  clicked this event w =
    (None, world_after w
             (<[fresh (dom (w_heap w)) := toggled_array this (w_heap w) l]>
                (w_heap w))
             [("update:value", Arr (fresh (dom (w_heap w))))] []).
Proof.
  unfold suppressed. intros Hs Hv.
  apply orb_false_elim in Hs as [Hl Hd].
  unfold clicked, toggled_array, world_after. fold (is_link (target event)).
  rewrite Hl, Hd, Hv. destruct w as [h em di st pr]; simpl.
  run_handler.
  rewrite (checked_insert_copy this h l _ Hv).
  destruct (checked this h); run_handler;
    rewrite read_insert_same, insert_insert_eq, app_nil_r; reflexivity.
Qed.

Lemma clicked_prim (this : t) (event : Event) (w : World) (p : prim) :
  suppressed this event = false -> value this = Prim p ->
  clicked this event w =
    (None, world_after w (w_heap w)
             [("update:value", Prim (toggled_prim this (w_heap w) p))]
             (if isString (valueWhenTrue this) then []
              else [click_event])).
Proof.
  unfold suppressed. intros Hs Hv.
  apply orb_false_elim in Hs as [Hl Hd].
  unfold clicked, toggled_prim, world_after. fold (is_link (target event)).
  rewrite Hl, Hd, Hv. destruct w as [h em di st pr]; simpl.
  run_handler.
  destruct (isString (valueWhenTrue this)); simpl.
  - destruct (checked this h); simpl; rewrite app_nil_r; reflexivity.
  - reflexivity.
Qed.


(** ** The checked flag *)

Lemma checked_collection (this : t) (h : heap) (l : loc) :
  value this = Arr l -> prim_truthy (valueWhenTrue this) = true ->
  checked this h = true <-> In (valueWhenTrue this) (read h l).
Proof.
  intros Hv Ht. unfold checked, isChecked, findTrueValues. rewrite Hv.
  destruct (find_strict (valueWhenTrue this) (read h l)) as [v|] eqn:E.
  - apply find_strict_some in E as [Hin He].
    apply prim_strict_eq_truthy in He; [subst v|assumption].
    rewrite Ht. tauto.
  - split; [discriminate|]. intros Hin.
    pose proof (find_strict_none _ _ E _ Hin) as Hf.
    rewrite prim_strict_eq_refl in Hf by assumption. discriminate.
Qed.


(** For a collection the flag is set exactly when the sentinel is truthy
    and an element of the collection. *)
Lemma checked_collection_exact (this : t) (h : heap) (l : loc) :
  value this = Arr l ->
  checked this h = true <->
  prim_truthy (valueWhenTrue this) = true /\ In (valueWhenTrue this) (read h l).
Proof.
  intros Hv. destruct (prim_truthy (valueWhenTrue this)) eqn:Ht.
  - rewrite (checked_collection this h l Hv Ht). tauto.
  - split; [|intros [? _]; discriminate].
    unfold checked, isChecked, findTrueValues. rewrite Hv.
    destruct (find_strict (valueWhenTrue this) (read h l)) as [v|] eqn:E;
      [|discriminate].
    apply find_strict_some in E as [_ He].
    apply prim_strict_eq_truthy_same in He. rewrite He, Ht. discriminate.
Qed.

(** C1, as the code has it at a sentinel that is not truthy: with
    [value = [false]] and [valueWhenTrue = false] the sentinel is an element
    of the collection, [find] returns it, and [isChecked] is [false]. *)
Theorem isChecked_misses_falsy_sentinel :
  let h : heap := {[ 1%positive := [Bool false] ]} in
  let this := with_value (Arr 1%positive) (Bool false) in
  In (valueWhenTrue this) (read h 1%positive) /\
  find_strict (valueWhenTrue this) (read h 1%positive) = Some (Bool false) /\
  isChecked this h = Bool false /\
  checked this h = false.
Proof.
  simpl. repeat split; try reflexivity. left. reflexivity.
Qed.

(** ** What the handler emits *)

(** C2: an activation that is not suppressed emits exactly one proposal;
    for a collection it is a new array (a copy) holding the collection
    without the sentinel when checked and with the sentinel appended
    otherwise; for a scalar with a string sentinel it is [null] when
    checked and the sentinel otherwise; for any other scalar it is the
    negation of the value. With [value = "yes"] and the sentinel ["yes"] it emits [null],
    with [value = null] it emits ["yes"]. *)
Theorem clicked_emits_one_proposal :
  (forall (this : t) (event : Event) (w : World),
     suppressed this event = false ->
     exists v : Js.value,
       w_emitted (snd (clicked this event w)) =
         w_emitted w ++ [("update:value", v)] /\
       match value this with
       | Arr l =>
           exists l' : loc,
             v = Arr l' /\
             w_heap w !! l' = None /\
             w_heap (snd (clicked this event w)) !! l' =
               Some (if checked this (w_heap w)
                     then remove_first (valueWhenTrue this) (read (w_heap w) l)
                     else read (w_heap w) l ++ [valueWhenTrue this])
       | Prim p =>
           v = Prim (if isString (valueWhenTrue this)
                     then (if checked this (w_heap w) then Null
                           else valueWhenTrue this)
                     else Bool (negb (prim_truthy p)))
       end) /\
  w_emitted (snd (clicked (with_value (Str "yes") (Str "yes"))
                          (click_on "LABEL" None) (init ∅))) =
    [("update:value", Prim Null)] /\
  w_emitted (snd (clicked (with_value Null (Str "yes"))
                          (click_on "LABEL" None) (init ∅))) =
    [("update:value", Prim (Str "yes"))].
Proof.
  split; [|split; reflexivity].
  intros this event w Hs.
  destruct (value this) as [p|l] eqn:Hv.
  - rewrite (clicked_prim this event w p Hs Hv). simpl.
    eexists. split; reflexivity.
  - rewrite (clicked_multi this event w l Hs Hv). simpl.
    eexists. split; [reflexivity|].
    eexists. split; [reflexivity|].
    split; [apply fresh_not_in_heap|].
    rewrite lookup_insert_eq. reflexivity.
Qed.

Lemma clicked_emits_one_proposal_witness :
  exists v : Js.value,
    w_emitted (snd (clicked (with_value (Bool false) (Bool true))
                            (click_on "LABEL" None) (init ∅))) =
      w_emitted (init ∅) ++ [("update:value", v)] /\
    v = Prim (Bool true).
Proof.
  destruct (proj1 clicked_emits_one_proposal
              (with_value (Bool false) (Bool true))
              (click_on "LABEL" None) (init ∅) eq_refl) as [v [He Hv]].
  exists v. split; [exact He | exact Hv].
Defined.

(** C4: the handler leaves every array of the store as it was, the array
    behind [value] included; what it emits for a collection is an array
    that was not in the store before. *)
Theorem clicked_leaves_value_untouched (this : t) (event : Event) (w : World) :
  w_heap w ⊆ w_heap (snd (clicked this event w)) /\
  exists out : list (string * Js.value),
    w_emitted (snd (clicked this event w)) = w_emitted w ++ out /\
    Forall (fun e => match snd e with
                     | Arr l' => w_heap w !! l' = None
                     | Prim _ => True
                     end) out.
Proof.
  destruct (suppressed this event) eqn:Hs.
  - unfold suppressed in Hs.
    destruct (is_link (target event)) eqn:Hl.
    + rewrite clicked_link by assumption. simpl.
      split; [reflexivity|]. exists []. rewrite app_nil_r. split; constructor.
    + simpl in Hs. rewrite clicked_disabled by assumption. simpl.
      split; [reflexivity|]. exists []. split; constructor.
  - destruct (value this) as [p|l] eqn:Hv.
    + rewrite (clicked_prim this event w p Hs Hv). simpl.
      split; [reflexivity|]. eexists. split; [reflexivity|].
      constructor; [exact I|constructor].
    + rewrite (clicked_multi this event w l Hs Hv). simpl.
      split; [apply insert_fresh_subseteq|].
      eexists. split; [reflexivity|].
      constructor; [apply fresh_not_in_heap|constructor].
Qed.

(** C5: a disabled control (the [disabled] prop, or the view mode) emits
    nothing, whatever the event; an activation on a hyperlink with an
    [href] returns [true] and leaves the world as it was: nothing is
    emitted, the event is neither prevented nor stopped, whether the
    control is disabled or not. *)
Theorem clicked_suppressed (this : t) (event : Event) (w : World) :
  (isDisabled this = true <-> disabled this = true \/ mode this = _VIEW) /\
  (isDisabled this = true ->
   w_emitted (snd (clicked this event w)) = w_emitted w) /\
  (is_link (target event) = true ->
   clicked this event w = (Some true, w)).
Proof.
  split; [|split].
  - unfold isDisabled. rewrite orb_true_iff, String.eqb_eq. reflexivity.
  - intros Hd. destruct (is_link (target event)) eqn:Hl.
    + rewrite clicked_link by assumption. reflexivity.
    + rewrite clicked_disabled by assumption. simpl. apply app_nil_r.
  - apply clicked_link.
Qed.

Lemma clicked_suppressed_witness :
  w_emitted (snd (clicked (in_view_mode (with_value (Bool false) (Bool true)))
                          (click_on "LABEL" None) (init ∅))) = [] /\
  clicked (with_value (Bool false) (Bool true))
          (click_on "A" (Some "https://example.org/")) (init ∅) =
    (Some true, init ∅).
Proof.
  split.
  - apply (proj1 (proj2 (clicked_suppressed
             (in_view_mode (with_value (Bool false) (Bool true)))
             (click_on "LABEL" None) (init ∅)))).
    reflexivity.
  - apply (proj2 (proj2 (clicked_suppressed
             (with_value (Bool false) (Bool true))
             (click_on "A" (Some "https://example.org/")) (init ∅)))).
    reflexivity.
Defined.

(** ** The [aria-describedby] attribute *)

Lemma describedById_truthy (this : t) :
  opt_truthy (Some (describedById this)) = true.
Proof. reflexivity. Qed.

(** C6, as the specification words it, fails on a checkbox that has a
    tooltip and no description: the specification gives it the internal
    id, the component gives it no attribute. *)
Lemma ariaDescribedBy_ignores_tooltip :
  let this := described (with_value (Bool false) (Bool true))
                        (TipStr "More information") None None in
  ariaDescribedBy_as_specified this = Some "described-by-abcdefghijkl" /\
  ariaDescribedBy this = None.
Proof. split; reflexivity. Qed.

(** C6, amended: the internal id takes part when [descriptionKey] or
    [description] is present (the tooltip plays no part). With an inherited
    id and a description the attribute is the inherited id, a space and
    the internal id; with one of the two it is that one; with neither it
    is absent. *)
Theorem ariaDescribedBy_cases (this : t) :
  ariaDescribedBy this =
    match attrs_aria_describedby this,
          opt_truthy (attrs_aria_describedby this),
          opt_truthy (descriptionKey this) || opt_truthy (description this)
    with
    | Some inherited, true, true =>
        Some (inherited +:+ " " +:+ describedById this)
    | Some inherited, true, false => Some inherited
    | _, _, true => Some (describedById this)
    | _, _, false => None
    end.
Proof.
  unfold ariaDescribedBy.
  destruct (attrs_aria_describedby this) as [a|];
    destruct (opt_truthy (descriptionKey this) || opt_truthy (description this));
    try rewrite describedById_truthy;
    try destruct (opt_truthy (Some a)); reflexivity.
Qed.


(** ** Activations fed back by the owner *)

Lemma toggle_suppressed (this : t) (h : heap) (event : Event) :
  suppressed this event = true ->
  toggle event (this, h) = (this, h, []).
Proof.
  unfold toggle, suppressed. simpl fst. simpl snd. intros Hs.
  destruct (is_link (target event)) eqn:Hl.
  - rewrite clicked_link by assumption. reflexivity.
  - simpl in Hs. rewrite clicked_disabled by assumption. reflexivity.
Qed.

Lemma toggle_prim (this : t) (h : heap) (event : Event) (p : prim) :
  suppressed this event = false -> value this = Prim p ->
  toggle event (this, h) =
    (set_value this (Prim (resolve_prim (toggled_prim this h p))), h,
     [Prim (toggled_prim this h p)]).
Proof.
  unfold toggle. simpl fst. simpl snd. intros Hs Hv.
  rewrite (clicked_prim this event (init h) p Hs Hv). reflexivity.
Qed.


Lemma suppressed_set_value (this : t) (v : Js.value) (event : Event) :
  suppressed (set_value this v) event = suppressed this event.
Proof. reflexivity. Qed.

Lemma kept_by_prop_resolve (x : prim) :
  kept_by_prop x = true -> resolve_prim x = x.
Proof.
  destruct x as [| |b|n|s]; simpl; try reflexivity; [discriminate|].
  destruct (String.eqb s "" || String.eqb s "value"); [discriminate|reflexivity].
Qed.







(** ** A numeric sentinel *)

Lemma toggle_numeric (this : t) (h : heap) (event : Event) (n : spec_float) (p : prim) :
  valueWhenTrue this = Num n -> value this = Prim p ->
  toggle event (this, h) =
    if suppressed this event then (this, h, [])
    else (set_value this (Prim (Bool (negb (prim_truthy p)))), h,
          [Prim (Bool (negb (prim_truthy p)))]).
Proof.
  intros Hw Hv. destruct (suppressed this event) eqn:Hs.
  - apply toggle_suppressed, Hs.
  - rewrite (toggle_prim this h event p Hs Hv).
    unfold toggled_prim. rewrite Hw. reflexivity.
Qed.

Lemma toggles_cons (e : Event) (events : list Event) (s : t * heap) :
  toggles (e :: events) s =
    (fst (toggles events (fst (toggle e s))),
     snd (toggle e s) ++ snd (toggles events (fst (toggle e s)))).
Proof.
  cbn [toggles]. destruct (toggle e s) as [s1 out1]. cbn [fst snd].
  destruct (toggles events s1) as [s2 out2]. reflexivity.
Qed.

Lemma toggles_numeric (n : spec_float) (events : list Event) :
  forall (this : t) (h : heap) (p : prim),
    valueWhenTrue this = Num n -> value this = Prim p ->
    exists (this' : t) (out : list Js.value),
      toggles events (this, h) = (this', h, out) /\
      valueWhenTrue this' = Num n /\
      Forall is_boolean out /\
      (out = [] /\ this' = this \/ out <> [] /\ is_boolean (value this')).
Proof.
  induction events as [|e events IH]; intros this h p Hw Hv.
  - exists this, []. simpl.
    split; [reflexivity|]. split; [assumption|]. split; [constructor|].
    left. split; reflexivity.
  - rewrite toggles_cons, (toggle_numeric this h e n p Hw Hv).
    destruct (suppressed this e); cbn [fst snd].
    + destruct (IH this h p Hw Hv) as (this' & out & -> & Hw' & Hb & Hfin).
      exists this', out.
      split; [reflexivity|]. split; [assumption|]. split; assumption.
    + set (b := negb (prim_truthy p)).
      destruct (IH (set_value this (Prim (Bool b))) h (Bool b) Hw eq_refl)
        as (this' & out & -> & Hw' & Hb & Hfin).
      exists this', (Prim (Bool b) :: out).
      split; [reflexivity|]. split; [assumption|]. split.
      * constructor; [exists b; reflexivity | assumption].
      * right. split; [discriminate|].
        destruct Hfin as [[_ ->] | [_ Hbool]]; [exists b; reflexivity | assumption].
Qed.

(** C10: with a numeric sentinel and a scalar value every activation that
    is not suppressed emits the negation of the value. Over any sequence
    of activations fed back by the owner, every proposal is a boolean, so
    none is [===] to the sentinel, and once a proposal was made the
    control is not checked: it cannot come back to the checked state. *)
Theorem numeric_sentinel_never_returns
    (this : t) (h : heap) (n : spec_float) (p : prim) :
  valueWhenTrue this = Num n -> value this = Prim p ->
  (forall (event : Event) (w : World),
     suppressed this event = false ->
     w_emitted (snd (clicked this event w)) =
       w_emitted w ++ [("update:value", Prim (Bool (negb (prim_truthy p))))]) /\
  (forall events : list Event,
     let r := toggles events (this, h) in
     Forall is_boolean (snd r) /\
     Forall (fun v => strict_eq v (Num n) = false) (snd r) /\
     (snd r <> [] -> checked (fst (fst r)) (snd (fst r)) = false)).
Proof.
  intros Hw Hv. split.
  - intros event w Hs. rewrite (clicked_prim this event w p Hs Hv). simpl.
    unfold toggled_prim. rewrite Hw. reflexivity.
  - intros events.
    destruct (toggles_numeric n events this h p Hw Hv)
      as (this' & out & E & Hw' & Hb & Hfin).
    cbv zeta. rewrite E. cbn [fst snd]. split; [|split].
    + assumption.
    + eapply Forall_impl; [exact Hb|]. intros v [b ->]. reflexivity.
    + intros Hne. destruct Hfin as [[-> _] | [_ [b Hb']]]; [congruence|].
      rewrite (checked_prim this' h (Bool b) Hb'), Hw'. reflexivity.
Qed.

Lemma numeric_sentinel_never_returns_witness :
  let one := Num (S754_finite false 1 0) in
  let r := toggles [click_on "LABEL" None; click_on "LABEL" None;
                    click_on "LABEL" None]
                   (with_value one one, ∅) in
  checked (with_value one one) ∅ = true /\
  snd r = [Prim (Bool false); Prim (Bool true); Prim (Bool false)] /\
  Forall (fun v => strict_eq v one = false) (snd r) /\
  (snd r <> [] -> checked (fst (fst r)) (snd (fst r)) = false).
Proof.
  intros one r.
  destruct (numeric_sentinel_never_returns (with_value one one) ∅
              (S754_finite false 1 0) one eq_refl eq_refl) as [_ H].
  specialize (H [click_on "LABEL" None; click_on "LABEL" None;
                 click_on "LABEL" None]).
  destruct H as (_ & H2 & H3).
  split; [reflexivity|]. split; [reflexivity|]. split; [exact H2 | exact H3].
Defined.

End CheckboxProofs.

(** ** Further properties of the checkbox *)

Module CheckboxExtras.

Import Checkbox CheckboxProofs.

(** X1: an activation whose target is not a link is consumed: the handler
    stops its propagation, prevents its default and returns nothing, also
    when the control is disabled. *)
Theorem clicked_consumes_event (this : t) (event : Event) (w : World) :
  is_link (target event) = false ->
  fst (clicked this event w) = None /\
  w_stopped (snd (clicked this event w)) = true /\
  w_prevented (snd (clicked this event w)) = true.
Proof.
  intros Hl. destruct (isDisabled this) eqn:Hd.
  - rewrite clicked_disabled by assumption. repeat split.
  - assert (Hs : suppressed this event = false)
      by (unfold suppressed; rewrite Hl, Hd; reflexivity).
    destruct (value this) as [p|l] eqn:Hv.
    + rewrite (clicked_prim this event w p Hs Hv). repeat split.
    + rewrite (clicked_multi this event w l Hs Hv). repeat split.
Qed.

Lemma clicked_consumes_event_witness :
  let this := in_view_mode (with_value (Bool true) (Bool true)) in
  let r := clicked this (click_on "A" None) (init ∅) in
  fst r = None /\ w_stopped (snd r) = true /\ w_prevented (snd r) = true.
Proof.
  apply (clicked_consumes_event
           (in_view_mode (with_value (Bool true) (Bool true)))
           (click_on "A" None) (init ∅)).
  reflexivity.
Defined.

(** X2: the handler dispatches a DOM [click] event on the root element in
    one case only, a scalar value with a sentinel that is not a string,
    when the activation is not suppressed. The event bubbles and is not
    cancelable; the modifier keys the handler puts into the dictionary
    are not members the constructor reads, so the event is the same
    whatever keys were held. For a collection and for a string sentinel
    nothing is dispatched. *)
Theorem clicked_dispatches (this : t) (event : Event) (w : World) :
  w_dispatched (snd (clicked this event w)) =
    w_dispatched w ++
    (if suppressed this event || isMulti (value this)
        || isString (valueWhenTrue this)
     then []
     else [{| ce_type := "click"; ce_bubbles := true; ce_cancelable := false;
              ce_composed := false; ce_detail := Null |}]).
Proof.
  destruct (suppressed this event) eqn:Hs.
  - unfold suppressed in Hs. destruct (is_link (target event)) eqn:Hl.
    + rewrite clicked_link by assumption. simpl. symmetry. apply app_nil_r.
    + simpl in Hs. rewrite clicked_disabled by assumption. reflexivity.
  - destruct (value this) as [p|l] eqn:Hv.
    + rewrite (clicked_prim this event w p Hs Hv). simpl.
      destruct (isString (valueWhenTrue this)); reflexivity.
    + rewrite (clicked_multi this event w l Hs Hv). reflexivity.
Qed.

Lemma string_append_assoc (a b c : string) :
  (a +:+ b) +:+ c = a +:+ (b +:+ c).
Proof.
  induction a as [|x a IH]; [reflexivity|].
  change (String x ((a +:+ b) +:+ c) = String x (a +:+ (b +:+ c))).
  rewrite IH. reflexivity.
Qed.

Lemma scalar_toggle_step (this : t) (h : heap) (p : prim) :
  value this = Prim p -> scalar_toggle this = true ->
  scalar_toggle
    (set_value this (Prim (resolve_prim (toggled_prim this h p)))) = true /\
  checked (set_value this (Prim (resolve_prim (toggled_prim this h p)))) h =
    negb (checked this h).
Proof.
  intros Hv. unfold scalar_toggle, toggled_prim, checked, isChecked.
  simpl. rewrite Hv.
  destruct (valueWhenTrue this) as [| |b|n|s]; destruct p as [| |b'|n'|s'];
    simpl; try discriminate.
  1: { intros _. destruct b, b'; split; reflexivity. }
  all: intros Hk; apply negb_true_iff in Hk.
  1-4: rewrite Hk; simpl; rewrite ?Hk, ?String.eqb_refl; split; reflexivity.
  destruct (String.eqb s' s); simpl; rewrite ?Hk; simpl;
    rewrite ?Hk, ?String.eqb_refl; split; reflexivity.
Qed.

Lemma xorb_negb_odd (c : bool) (n : nat) :
  xorb (negb c) (Nat.odd n) = xorb c (Nat.odd (S n)).
Proof.
  rewrite Nat.odd_succ, <- Nat.negb_odd.
  destruct c, (Nat.odd n); reflexivity.
Qed.

(** X3: for a scalar value with a string sentinel other than the empty
    string and ["value"] (which the prop casts to [true]), or a boolean
    value with a boolean sentinel, a sequence of activations fed back by
    the owner makes one proposal per activation that is not suppressed,
    leaves the store as it was, and leaves the control checked exactly
    when it was checked and their number is even, or was not and their
    number is odd. *)
Theorem toggles_parity (events : list Event) :
  forall (this : t) (h : heap),
    scalar_toggle this = true ->
    let r := toggles events (this, h) in
    List.length (snd r) = effective this events /\
    snd (fst r) = h /\
    checked (fst (fst r)) h = xorb (checked this h) (Nat.odd (effective this events)).
Proof.
  induction events as [|e events IH]; intros this h Hst; cbv zeta.
  - simpl. rewrite xorb_false_r. repeat split.
  - rewrite toggles_cons. unfold effective. cbn [List.filter].
    fold (effective this events).
    destruct (suppressed this e) eqn:Hs; cbn [negb].
    + rewrite (toggle_suppressed this h e Hs). cbn [fst snd].
      apply (IH this h Hst).
    + destruct (value this) as [p|l] eqn:Hv;
        [|unfold scalar_toggle in Hst; rewrite Hv in Hst; discriminate].
      rewrite (toggle_prim this h e p Hs Hv). cbn [fst snd List.length app].
      destruct (scalar_toggle_step this h p Hv Hst) as [Hst' Hc'].
      destruct (IH _ h Hst') as (H1 & H2 & H3).
      change (effective
                (set_value this (Prim (resolve_prim (toggled_prim this h p))))
                events)
        with (effective this events) in *.
      split; [f_equal; exact H1|]. split; [exact H2|].
      rewrite H3, Hc'. apply xorb_negb_odd.
Qed.

Lemma toggles_parity_witness :
  let this := with_value (Str "no") (Str "yes") in
  let events := [click_on "LABEL" None; click_on "A" (Some "/docs");
                 click_on "SPAN" None; click_on "LABEL" None] in
  let r := toggles events (this, ∅) in
  List.length (snd r) = 3 /\ snd (fst r) = ∅ /\
  checked (fst (fst r)) ∅ = true.
Proof.
  apply (toggles_parity
           [click_on "LABEL" None; click_on "A" (Some "/docs");
            click_on "SPAN" None; click_on "LABEL" None]
           (with_value (Str "no") (Str "yes")) ∅).
  reflexivity.
Defined.

(** X4: [aria-checked] is the truthiness of [value]. It agrees with the
    checked flag for a boolean value with the sentinel [true], and for the
    sentinel or [null] with a non-empty string sentinel; for a collection
    it is [true] whatever the collection holds, so it differs from the
    checked flag of every collection that is not checked. *)
Theorem ariaChecked_and_checked (this : t) (h : heap) :
  (forall b : bool,
     value this = Prim (Bool b) -> valueWhenTrue this = Bool true ->
     ariaChecked this = checked this h) /\
  (forall s : string,
     valueWhenTrue this = Str s -> s <> "" ->
     value this = Prim (Str s) \/ value this = Prim Null ->
     ariaChecked this = checked this h) /\
  (forall l : loc,
     value this = Arr l ->
     ariaChecked this = true /\
     (checked this h = false -> ariaChecked this <> checked this h)).
Proof.
  unfold ariaChecked, checked, isChecked. split; [|split].
  - intros b -> ->. destruct b; reflexivity.
  - intros s -> Hs [-> | ->]; simpl.
    + rewrite String.eqb_refl. apply String.eqb_neq in Hs. rewrite Hs.
      reflexivity.
    + reflexivity.
  - intros l ->. simpl. split; [reflexivity|]. intros ->. discriminate.
Qed.

Lemma ariaChecked_and_checked_witness :
  let h : heap := {[ 1%positive := [Str "b"] ]} in
  let this := with_value (Arr 1%positive) (Str "a") in
  ariaChecked this = true /\ checked this h = false.
Proof.
  intros h this.
  destruct (ariaChecked_and_checked this h) as (_ & _ & H).
  destruct (H 1%positive eq_refl) as [Ha _].
  split; [exact Ha | reflexivity].
Defined.

(** X5: the description block and [aria-describedby] go together. When
    the block is rendered it holds an element whose id is the internal id,
    and the attribute ends with that id; when it is not rendered the
    attribute is the inherited one alone, or absent. The block is never
    rendered empty. *)
Theorem described_by_names_rendered_element (this : t) :
  match description_block this with
  | Some (Some e) =>
      id_of e = describedById this /\
      exists before : string,
        ariaDescribedBy this = Some (before +:+ describedById this)
  | Some None => False
  | None =>
      ariaDescribedBy this =
        (if opt_truthy (attrs_aria_describedby this)
         then attrs_aria_describedby this else None)
  end.
Proof.
  unfold ariaDescribedBy, description_block.
  destruct (opt_truthy (descriptionKey this) || opt_truthy (description this))
    eqn:Hany.
  - rewrite describedById_truthy.
    assert (Hend : exists before : string,
              (if opt_truthy (attrs_aria_describedby this) && true
               then match attrs_aria_describedby this with
                    | Some a => Some (a +:+ " " +:+ describedById this)
                    | None => None
                    end
               else if opt_truthy (attrs_aria_describedby this) || true
                    then if opt_truthy (attrs_aria_describedby this)
                         then attrs_aria_describedby this
                         else Some (describedById this)
                    else None) = Some (before +:+ describedById this)).
    { destruct (attrs_aria_describedby this) as [a|]; simpl.
      - destruct (negb (a =? "")%string); simpl.
        + exists (a +:+ " "). rewrite string_append_assoc. reflexivity.
        + exists "". reflexivity.
      - exists "". reflexivity. }
    destruct (opt_truthy (descriptionKey this)) eqn:Hk.
    + split; [reflexivity | exact Hend].
    + simpl in Hany. rewrite Hany. split; [reflexivity | exact Hend].
  - destruct (attrs_aria_describedby this) as [a|]; simpl; [|reflexivity].
    destruct (negb (a =? "")%string); reflexivity.
Qed.

(** X6: [aria-label] and [aria-labelledby] are never set together;
    [aria-labelledby] is set exactly when a label or a label key is given,
    and the element it names is rendered exactly when the parent does not
    fill the [label] slot. *)
Theorem labelling_is_consistent (this : t) (lab : labelling) :
  (replacementLabel lab = None \/ ariaLabelledby lab = None) /\
  (ariaLabelledby lab <> None <->
   opt_truthy (labelKey lab) || opt_truthy (label lab) = true) /\
  (ariaLabelledby lab <> None ->
   (exists e : identified,
      label_element this lab = Some e /\ Some (id_of e) = ariaLabelledby lab)
   <-> slot_label lab = false).
Proof.
  unfold replacementLabel, ariaLabelledby, label_element.
  destruct (opt_truthy (labelKey lab)) eqn:Hk;
    destruct (opt_truthy (label lab)) eqn:Hl; simpl.
  4: { split; [right; reflexivity|]. split; [split; [congruence|discriminate]|].
       congruence. }
  all: split; [left; reflexivity|];
    split; [split; [reflexivity|discriminate]|];
    intros _; rewrite ?orb_true_r; simpl;
    destruct (slot_label lab); simpl;
    (split; [intros (e & He & _); congruence || reflexivity|]);
    intros H; try discriminate; eexists; split; reflexivity.
Qed.

Lemma labelling_is_consistent_witness :
  let this := with_value (Bool false) (Bool true) in
  let lab := {| label := Some "Enable"; labelKey := None;
                alternateLabel := Some "Enable the feature";
                slot_label := false; random_label := "mnopqrstuvwx" |} in
  exists e : identified,
    label_element this lab = Some e /\
    Some (id_of e) = ariaLabelledby lab.
Proof.
  intros this lab.
  apply (proj2 (proj2 (labelling_is_consistent this lab))).
  - discriminate.
  - reflexivity.
Defined.

End CheckboxExtras.

(** ** The reference JSON reader never runs out of fuel *)

Module JSONProofs.

Import JSON.

Lemma skip_ws_length (s : string) :
  String.length (skip_ws s) <= String.length s.
Proof.
  induction s as [|c r IH]; [reflexivity|].
  cbn [skip_ws]. destruct (is_ws c); cbn [String.length]; lia.
Qed.

Lemma expect_length (c : ascii) (s r : string) :
  expect c s = Some r -> String.length s = S (String.length r).
Proof.
  unfold expect. destruct s as [|c' r']; [discriminate|].
  destruct (Ascii.eqb c' c); [|discriminate].
  intros [= ->]. reflexivity.
Qed.

Lemma read_chars_length (n : nat) :
  forall (s body rest : string),
    String.length s < n ->
    read_chars s = Some (body, rest) ->
    String.length rest < String.length s.
Proof.
  induction n as [|n IH]; intros s body rest Hn; [lia|].
  destruct s as [|c r]; [discriminate|].
  cbn [read_chars String.length] in *.
  destruct (Ascii.eqb c quote).
  { intros [= <- <-]. lia. }
  destruct (Ascii.eqb c "\").
  - destruct r as [|e r']; [discriminate|].
    cbn [String.length] in *.
    destruct (is_simple_escape e).
    + destruct (read_chars r') as [[b' rest']|] eqn:E; [|discriminate].
      intros [= <- <-]. apply IH in E; lia.
    + destruct (Ascii.eqb e "u"); [|discriminate].
      destruct r' as [|h1 [|h2 [|h3 [|h4 r'']]]]; try discriminate.
      cbn [String.length] in *.
      destruct (is_hex h1 && is_hex h2 && is_hex h3 && is_hex h4);
        [|discriminate].
      destruct (read_chars r'') as [[b' rest']|] eqn:E; [|discriminate].
      intros [= <- <-]. apply IH in E; lia.
  - destruct (Nat.ltb (nat_of_ascii c) 32); [discriminate|].
    destruct (read_chars r) as [[b' rest']|] eqn:E; [|discriminate].
    intros [= <- <-]. apply IH in E; lia.
Qed.

Lemma span_digits_length (s : string) :
  String.length (snd (span_digits s)) <= String.length s.
Proof.
  induction s as [|c r IH]; [reflexivity|].
  cbn [span_digits]. destruct (is_digit c); [|reflexivity].
  destruct (span_digits r) as [ds rest]. cbn [snd String.length] in *. lia.
Qed.

Lemma read_int_length (s lexeme rest : string) :
  read_int s = Some (lexeme, rest) ->
  String.length rest < String.length s.
Proof.
  unfold read_int. destruct s as [|c r]; [discriminate|].
  cbn [String.length].
  destruct (Ascii.eqb c "0"); [intros [= <- <-]; lia|].
  destruct (is_digit c); [|discriminate].
  pose proof (span_digits_length r) as H.
  destruct (span_digits r) as [ds rest']. cbn [snd] in H.
  intros [= <- <-]. lia.
Qed.

Lemma read_frac_length (s lexeme rest : string) :
  read_frac s = Some (lexeme, rest) ->
  String.length rest <= String.length s.
Proof.
  unfold read_frac. destruct s as [|c r]; [intros [= <- <-]; reflexivity|].
  destruct (Ascii.eqb c "."); [|intros [= <- <-]; reflexivity].
  pose proof (span_digits_length r) as H.
  destruct (span_digits r) as [[|d ds] rest']; [discriminate|].
  cbn [snd String.length] in *. intros [= <- <-]. lia.
Qed.

Lemma read_exp_length (s lexeme rest : string) :
  read_exp s = Some (lexeme, rest) ->
  String.length rest <= String.length s.
Proof.
  unfold read_exp. destruct s as [|c r]; [intros [= <- <-]; reflexivity|].
  destruct (Ascii.eqb c "e" || Ascii.eqb c "E");
    [|intros [= <- <-]; reflexivity].
  destruct (match r with
            | String g r' =>
                if Ascii.eqb g "+" || Ascii.eqb g "-"
                then (String g EmptyString, r') else (EmptyString, r)
            | EmptyString => (EmptyString, r)
            end) as [sign r1] eqn:E.
  assert (Hsign : String.length r1 <= String.length r).
  { destruct r as [|g r']; [injection E as <- <-; reflexivity|].
    destruct (Ascii.eqb g "+" || Ascii.eqb g "-"); injection E as <- <-;
      cbn [String.length]; lia. }
  pose proof (span_digits_length r1) as H.
  destruct (span_digits r1) as [[|d ds] rest']; [discriminate|].
  cbn [snd String.length] in *. intros [= <- <-]. lia.
Qed.

Lemma read_number_length (s lexeme rest : string) :
  read_number s = Some (lexeme, rest) ->
  String.length rest < String.length s.
Proof.
  unfold read_number.
  destruct (match s with
            | String c r => if Ascii.eqb c "-" then (String c EmptyString, r)
                            else (EmptyString, s)
            | EmptyString => (EmptyString, s)
            end) as [sign r0] eqn:E.
  assert (Hsign : String.length r0 <= String.length s).
  { destruct s as [|c r]; [injection E as <- <-; reflexivity|].
    destruct (Ascii.eqb c "-"); injection E as <- <-;
      cbn [String.length]; lia. }
  destruct (read_int r0) as [[i r1]|] eqn:Ei; [|discriminate].
  destruct (read_frac r1) as [[f r2]|] eqn:Ef; [|discriminate].
  destruct (read_exp r2) as [[e r3]|] eqn:Ee; [|discriminate].
  apply read_int_length in Ei. apply read_frac_length in Ef.
  apply read_exp_length in Ee. intros [= <- <-]. lia.
Qed.

Lemma strip_prefix_length (p s rest : string) :
  strip_prefix p s = Some rest ->
  String.length s = String.length p + String.length rest.
Proof.
  revert s. induction p as [|a p IH]; intros s.
  - cbn [strip_prefix]. intros [= ->]. reflexivity.
  - destruct s as [|b s]; [discriminate|]. cbn [strip_prefix String.length].
    destruct (Ascii.eqb a b); [|discriminate].
    intros H. apply IH in H. lia.
Qed.

Lemma read_literal_good (word : string) (v : json) (s : string) :
  0 < String.length word -> good (read_literal word v s) s.
Proof.
  intros Hw. unfold read_literal.
  destruct (strip_prefix word s) as [rest|] eqn:E; [|exact I].
  apply strip_prefix_length in E. cbn [good]. lia.
Qed.


Lemma read_value_S (fuel : nat) (c : ascii) (r : string) :
  read_value (S fuel) (String c r) =
    if Ascii.eqb c "{" then
      match expect "}" (skip_ws r) with
      | Some rest => Ok (JObject []) rest
      | None =>
          match read_members fuel (skip_ws r) with
          | Ok ms rest => Ok (JObject ms) rest
          | SyntaxError => SyntaxError
          | OutOfFuel => OutOfFuel
          end
      end
    else if Ascii.eqb c "[" then
      match expect "]" (skip_ws r) with
      | Some rest => Ok (JArray []) rest
      | None =>
          match read_elements fuel (skip_ws r) with
          | Ok vs rest => Ok (JArray vs) rest
          | SyntaxError => SyntaxError
          | OutOfFuel => OutOfFuel
          end
      end
    else if Ascii.eqb c quote then
      match read_chars r with
      | Some (body, rest) => Ok (JString body) rest
      | None => SyntaxError
      end
    else if Ascii.eqb c "t" then read_literal "true" (JBool true) (String c r)
    else if Ascii.eqb c "f" then read_literal "false" (JBool false) (String c r)
    else if Ascii.eqb c "n" then read_literal "null" JNull (String c r)
    else
      match read_number (String c r) with
      | Some (lexeme, rest) => Ok (JNumber lexeme) rest
      | None => SyntaxError
      end.
Proof. reflexivity. Qed.

Lemma read_elements_S (fuel : nat) (s : string) :
  read_elements (S fuel) s =
    match read_value fuel s with
    | Ok v r =>
        match expect "," (skip_ws r) with
        | Some r' =>
            match read_elements fuel (skip_ws r') with
            | Ok vs rest => Ok (v :: vs) rest
            | SyntaxError => SyntaxError
            | OutOfFuel => OutOfFuel
            end
        | None =>
            match expect "]" (skip_ws r) with
            | Some rest => Ok [v] rest
            | None => SyntaxError
            end
        end
    | SyntaxError => SyntaxError
    | OutOfFuel => OutOfFuel
    end.
Proof. reflexivity. Qed.

Lemma read_members_S (fuel : nat) (s : string) :
  read_members (S fuel) s =
    match expect quote s with
    | Some r =>
        match read_chars r with
        | Some (key, r1) =>
            match expect ":" (skip_ws r1) with
            | Some r2 =>
                match read_value fuel (skip_ws r2) with
                | Ok v r3 =>
                    match expect "," (skip_ws r3) with
                    | Some r4 =>
                        match read_members fuel (skip_ws r4) with
                        | Ok ms rest => Ok ((key, v) :: ms) rest
                        | SyntaxError => SyntaxError
                        | OutOfFuel => OutOfFuel
                        end
                    | None =>
                        match expect "}" (skip_ws r3) with
                        | Some rest => Ok [(key, v)] rest
                        | None => SyntaxError
                        end
                    end
                | SyntaxError => SyntaxError
                | OutOfFuel => OutOfFuel
                end
            | None => SyntaxError
            end
        | None => SyntaxError
        end
    | None => SyntaxError
    end.
Proof. reflexivity. Qed.

(** With fuel above twice the length of the input, each reader ends with
    a value and a shorter rest, or with a syntax error. *)
Lemma readers_good (fuel : nat) :
  (forall s, 2 * String.length s + 1 <= fuel -> good (read_value fuel s) s) /\
  (forall s, 2 * String.length s + 2 <= fuel -> good (read_elements fuel s) s) /\
  (forall s, 2 * String.length s + 2 <= fuel -> good (read_members fuel s) s).
Proof.
  induction fuel as [|fuel (IHv & IHe & IHm)].
  { repeat split; intros s H; lia. }
  split; [|split]; intros s H.
  - destruct s as [|c r]; [exact I|].
    rewrite read_value_S. cbn [String.length] in H.
    pose proof (skip_ws_length r) as Hws.
    destruct (Ascii.eqb c "{").
    { destruct (expect "}" (skip_ws r)) as [rest|] eqn:E.
      - apply expect_length in E. cbn [good String.length]. lia.
      - assert (G : good (read_members fuel (skip_ws r)) (skip_ws r))
          by (apply IHm; lia).
        destruct (read_members fuel (skip_ws r)); cbn [good String.length] in *;
          [lia | exact I | exact G]. }
    destruct (Ascii.eqb c "[").
    { destruct (expect "]" (skip_ws r)) as [rest|] eqn:E.
      - apply expect_length in E. cbn [good String.length]. lia.
      - assert (G : good (read_elements fuel (skip_ws r)) (skip_ws r))
          by (apply IHe; lia).
        destruct (read_elements fuel (skip_ws r)); cbn [good String.length] in *;
          [lia | exact I | exact G]. }
    destruct (Ascii.eqb c quote).
    { destruct (read_chars r) as [[body rest]|] eqn:E; [|exact I].
      apply (read_chars_length (S (String.length r))) in E; [|lia].
      cbn [good String.length]. lia. }
    destruct (Ascii.eqb c "t"); [apply read_literal_good; cbn; lia|].
    destruct (Ascii.eqb c "f"); [apply read_literal_good; cbn; lia|].
    destruct (Ascii.eqb c "n"); [apply read_literal_good; cbn; lia|].
    destruct (read_number (String c r)) as [[lexeme rest]|] eqn:E; [|exact I].
    apply read_number_length in E. exact E.
  - rewrite read_elements_S.
    assert (G : good (read_value fuel s) s) by (apply IHv; lia).
    destruct (read_value fuel s) as [v r| |]; cbn [good] in *;
      [|exact I|exact G].
    pose proof (skip_ws_length r) as Hws.
    destruct (expect "," (skip_ws r)) as [r'|] eqn:E.
    + apply expect_length in E. pose proof (skip_ws_length r') as Hws'.
      assert (G' : good (read_elements fuel (skip_ws r')) (skip_ws r'))
        by (apply IHe; lia).
      destruct (read_elements fuel (skip_ws r')); cbn [good] in *;
        [lia | exact I | exact G'].
    + destruct (expect "]" (skip_ws r)) as [rest|] eqn:E'; [|exact I].
      apply expect_length in E'. cbn [good]. lia.
  - rewrite read_members_S.
    destruct (expect quote s) as [r|] eqn:E0; [|exact I].
    apply expect_length in E0.
    destruct (read_chars r) as [[key r1]|] eqn:E1; [|exact I].
    apply (read_chars_length (S (String.length r))) in E1; [|lia].
    pose proof (skip_ws_length r1) as Hws1.
    destruct (expect ":" (skip_ws r1)) as [r2|] eqn:E2; [|exact I].
    apply expect_length in E2. pose proof (skip_ws_length r2) as Hws2.
    assert (G : good (read_value fuel (skip_ws r2)) (skip_ws r2))
      by (apply IHv; lia).
    destruct (read_value fuel (skip_ws r2)) as [v r3| |]; cbn [good] in *;
      [|exact I|exact G].
    pose proof (skip_ws_length r3) as Hws3.
    destruct (expect "," (skip_ws r3)) as [r4|] eqn:E3.
    + apply expect_length in E3. pose proof (skip_ws_length r4) as Hws4.
      assert (G' : good (read_members fuel (skip_ws r4)) (skip_ws r4))
        by (apply IHm; lia).
      destruct (read_members fuel (skip_ws r4)); cbn [good] in *;
        [lia | exact I | exact G'].
    + destruct (expect "}" (skip_ws r3)) as [rest|] eqn:E4; [|exact I].
      apply expect_length in E4. cbn [good]. lia.
Qed.

(** The reader of a whole text never runs out of fuel: [parse] is [None]
    only on a syntax error. *)
Theorem read_text_total (s : string) : read_text s <> OutOfFuel.
Proof.
  unfold read_text, fuel_for.
  pose proof (skip_ws_length s) as Hws.
  assert (G : good (read_value (2 * String.length s + 2) (skip_ws s)) (skip_ws s))
    by (apply readers_good; lia).
  destruct (read_value (2 * String.length s + 2) (skip_ws s)) as [v rest| |];
    cbn [good] in G; [|discriminate|contradiction].
  destruct (skip_ws rest); discriminate.
Qed.

Lemma parse_none_syntax_error (s : string) :
  parse s = None <-> read_text s = SyntaxError.
Proof.
  unfold parse. pose proof (read_text_total s) as H.
  destruct (read_text s); split; congruence.
Qed.

End JSONProofs.

(** ** The detail text *)

Module DetailTextProofs.

Import DetailText.

Lemma length_substring_prefix (n : nat) (s : string) :
  n <= String.length s -> String.length (String.substring 0 n s) = n.
Proof.
  revert s. induction n as [|n IH]; intros s Hn.
  - destruct s; reflexivity.
  - destruct s as [|c s]; simpl in *; [lia|].
    f_equal. apply IH. lia.
Qed.

Lemma slice_prefix (s : string) (m : Z) :
  (0 <= m)%Z ->
  slice s (Int 0) (Int m) =
    String.substring 0 (Z.to_nat (Z.min m (Z.of_nat (String.length s)))) s.
Proof.
  intros Hm. unfold slice, relative_index.
  replace (0 <? 0)%Z with false by reflexivity.
  destruct (m <? 0)%Z eqn:E; [apply Z.ltb_lt in E; lia|].
  rewrite Z.min_l by lia. rewrite Z.sub_0_r, Z.max_l by lia. reflexivity.
Qed.

Lemma integral_truncates (n : number) (z : Z) :
  integral n z -> ToIntegerOrInfinity n = Int z.
Proof.
  destruct n as [|neg|q]; simpl; try contradiction.
  unfold Qeq, inject_Z. simpl. rewrite Z.mul_1_r. intros ->.
  f_equal. apply Z.quot_mul. discriminate.
Qed.

Lemma integral_le (len : Z) (n : number) (z : Z) :
  integral n z -> number_le (number_of_Z len) n = (len <=? z)%Z.
Proof.
  destruct n as [|neg|q]; simpl; try contradiction. intros H.
  apply eq_true_iff_eq.
  rewrite Qle_bool_iff, H, <- Zle_Qle, Z.leb_le. reflexivity.
Qed.

Lemma integral_lt (len : Z) (n : number) (z : Z) :
  integral n z -> number_lt n (number_of_Z len) = (z <? len)%Z.
Proof.
  intros H. rewrite Z.ltb_antisym, <- (integral_le len n z H).
  destruct n as [|neg|q]; simpl in *; try contradiction. reflexivity.
Qed.

Lemma integral_number_of_Z (z : Z) : integral (number_of_Z z) z.
Proof. simpl. reflexivity. Qed.

Lemma length_filler (n : nat) : String.length (filler n) = n.
Proof.
  unfold filler. induction n as [|n IH]; simpl; [reflexivity|].
  f_equal. exact IH.
Qed.

Section Facts.

Variable i18n_t : string -> list (string * prim) -> bool -> string.
Variable asciiLike : string -> bool.
Variable binarySize : string -> prim.
Variable json : Type.
Variable JSON_parse : string -> option json.
Variable JSON_stringify : json -> string.
Variable prefs_get : string -> bool.
Variable HIDE_SENSITIVE : string.

(** C7, amended: the test is made on the value as it is, not trimmed.
    [jsonStr] is the pretty-printed rendering exactly when the value
    starts with a brace or a bracket and parses; when the parse fails it
    is [null]; it is a total function, no error leaves it. *)
Theorem jsonStr_classification (p : props) :
  (forall s : string,
     jsonStr json JSON_parse JSON_stringify p = Some s <->
     (startsWith (value p) "{" || startsWith (value p) "[" = true /\
      exists parsed : json,
        JSON_parse (value p) = Some parsed /\ s = JSON_stringify parsed)) /\
  (JSON_parse (value p) = None ->
   jsonStr json JSON_parse JSON_stringify p = None) /\
  (startsWith (value p) "{" || startsWith (value p) "[" = false ->
   jsonStr json JSON_parse JSON_stringify p = None).
Proof.
  unfold jsonStr.
  assert (Hne : startsWith (value p) "{" || startsWith (value p) "[" = true ->
                negb (value p =? "")%string = true).
  { destruct (value p); [discriminate | reflexivity]. }
  split; [|split].
  - intros s. split.
    + destruct (negb (value p =? "")%string
                && (startsWith (value p) "{" || startsWith (value p) "["))
        eqn:G; [|discriminate].
      apply andb_true_iff in G as [_ G].
      destruct (JSON_parse (value p)) as [parsed|]; [|discriminate].
      intros [= <-]. split; [exact G|]. exists parsed. split; reflexivity.
    + intros [G (parsed & -> & ->)].
      rewrite (Hne G), G. reflexivity.
  - intros ->.
    destruct (negb (value p =? "")%string
              && (startsWith (value p) "{" || startsWith (value p) "["));
      reflexivity.
  - intros ->. rewrite andb_false_r. reflexivity.
Qed.

(** C8, amended: for a text that is not binary, [expanded] starts as
    [true] exactly when [value.length <= maxLength] holds as Numbers are
    compared, which for an integer threshold is the comparison of the
    integers; while the text is not expanded the body is
    [value.slice(0, maxLength)], and for a long text and a threshold that
    is an integer and not negative this is exactly the first [maxLength]
    characters; once [expand] has flipped [expanded] the body is the
    whole value. A text of 1000 characters with the threshold 640 starts
    collapsed and long, with a body of 640 characters, and has a body of
    1000 characters after [expand]. *)
Theorem truncation (p : props) :
  isBinary asciiLike p = false ->
  (expanded (data p) = true <->
   number_le (number_of_Z (Z.of_nat (String.length (value p))))
             (maxLength p) = true) /\
  (forall n : Z,
     integral (maxLength p) n ->
     (expanded (data p) = true <->
      (Z.of_nat (String.length (value p)) <= n)%Z)) /\
  (forall d : state,
     expanded d = false ->
     body i18n_t asciiLike binarySize p d =
       slice (value p) (Int 0) (ToIntegerOrInfinity (maxLength p))) /\
  (forall (d : state) (n : Z),
     integral (maxLength p) n -> (0 <= n)%Z ->
     isLong p = true -> expanded d = false ->
     body i18n_t asciiLike binarySize p d =
       String.substring 0 (Z.to_nat n) (value p) /\
     Z.of_nat (String.length (body i18n_t asciiLike binarySize p d)) = n) /\
  (forall d : state,
     expanded d = false ->
     expanded (expand d) = true /\
     body i18n_t asciiLike binarySize p (expand d) = value p) /\
  (let long := text (filler 1000) 640 in
   expanded (data long) = false /\
   isLong long = true /\
   String.length (body i18n_t asciiLike binarySize long (data long)) = 640 /\
   String.length (body i18n_t asciiLike binarySize long (expand (data long)))
     = 1000).
Proof.
  intros Hb.
  assert (Hint : forall (d : state) (n : Z),
     integral (maxLength p) n -> (0 <= n)%Z ->
     isLong p = true -> expanded d = false ->
     body i18n_t asciiLike binarySize p d =
       String.substring 0 (Z.to_nat n) (value p) /\
     Z.of_nat (String.length (body i18n_t asciiLike binarySize p d)) = n).
  { intros d n Hn Hm Hl He. unfold body. rewrite Hb, He.
    unfold isLong, size in Hl. rewrite (integral_lt _ _ n Hn) in Hl.
    apply Z.ltb_lt in Hl.
    rewrite (integral_truncates _ n Hn).
    rewrite slice_prefix by assumption. rewrite Z.min_l by lia.
    split; [reflexivity|].
    rewrite length_substring_prefix by lia. lia. }
  split; [|split; [|split; [|split; [|split]]]].
  - unfold data. simpl. reflexivity.
  - intros n Hn. unfold data. cbn [expanded].
    rewrite (integral_le _ _ n Hn). apply Z.leb_le.
  - intros d He. unfold body. rewrite Hb, He. reflexivity.
  - exact Hint.
  - intros d He. unfold body, expand. simpl. rewrite Hb, He. split; reflexivity.
  - cbv zeta.
    assert (Hn : integral (maxLength (text (filler 1000) 640)) 640)
      by apply integral_number_of_Z.
    assert (Hlen : String.length (value (text (filler 1000) 640)) = 1000)
      by apply length_filler.
    assert (He : expanded (data (text (filler 1000) 640)) = false).
    { unfold data. cbn [expanded]. rewrite (integral_le _ _ 640 Hn), Hlen.
      reflexivity. }
    assert (Hl : isLong (text (filler 1000) 640) = true).
    { unfold isLong, size. rewrite (integral_lt _ _ 640 Hn), Hlen.
      reflexivity. }
    split; [exact He|]. split; [exact Hl|]. split.
    + unfold body. rewrite He, (integral_truncates _ 640 Hn).
      cbn [isBinary text binary value].
      rewrite slice_prefix by lia. rewrite length_filler.
      apply length_substring_prefix. rewrite length_filler. lia.
    + unfold body, expand. cbn [expanded]. rewrite He.
      cbn [isBinary text binary negb value]. apply length_filler.
Qed.

(** C9: [concealed] holds exactly when conceal is asked for, the
    effective hide flag holds and the content is not binary; the hide
    flag is the component's [standAloneHide], which starts as [true],
    when [concealStandAlone] is set, and the [HIDE_SENSITIVE] preference
    of the store otherwise; where the flag is the component's own and the
    content is not binary, flipping [standAloneHide] flips [concealed],
    and it changes neither the body nor [expanded]. *)
Theorem concealed_policy (p : props) (d : state) :
  (concealed asciiLike prefs_get HIDE_SENSITIVE p d = true <->
   conceal p = true /\
   hideSensitiveData prefs_get HIDE_SENSITIVE p d = true /\
   isBinary asciiLike p = false) /\
  hideSensitiveData prefs_get HIDE_SENSITIVE p d =
    (if concealStandAlone p then standAloneHide d
     else prefs_get HIDE_SENSITIVE) /\
  standAloneHide (data p) = true /\
  (conceal p = true -> concealStandAlone p = true ->
   isBinary asciiLike p = false ->
   concealed asciiLike prefs_get HIDE_SENSITIVE p (toggleStandAloneHide d) =
     negb (concealed asciiLike prefs_get HIDE_SENSITIVE p d)) /\
  body i18n_t asciiLike binarySize p (toggleStandAloneHide d) =
    body i18n_t asciiLike binarySize p d /\
  expanded (toggleStandAloneHide d) = expanded d.
Proof.
  split; [|split; [|split; [|split; [|split]]]]; try reflexivity.
  - unfold concealed. rewrite !andb_true_iff, negb_true_iff.
    split; [intros [[H1 H2] H3] | intros (H1 & H2 & H3)]; auto.
  - intros Hc Hs Hb. unfold concealed, hideSensitiveData.
    rewrite Hc, Hs, Hb. simpl. rewrite !andb_true_r. reflexivity.
Qed.

End Facts.

(** C7, as stated, fails on a JSON text that starts with a space: trimmed
    it starts with a brace and it parses, and [jsonStr] is [null]. *)
Lemma jsonStr_does_not_trim :
  let p := text " {}" 640 in
  trim (value p) = "{}" /\
  JSON.parse (value p) = Some (JSON.JObject []) /\
  isJson_as_specified JSON.json JSON.parse p = true /\
  jsonStr JSON.json JSON.parse JSON.stringify p = None.
Proof. repeat split; reflexivity. Qed.

(** C8, as stated, fails for a threshold that is not a count. With the
    value ["abc"] and the threshold [-1] the text is long and not
    expanded and its body is ["ab"]: [slice] counts a negative end from
    the end of the value. With the threshold [2.5] the body is ["ab"]
    again, two characters and not 2.5. In both cases the number of
    characters of the body is not [maxLength]. *)
Lemma truncation_off_a_count :
  (let p := text "abc" (-1) in
   let b := body (fun _ _ _ => "") (fun _ => true) (fun _ => Null) p (data p) in
   isLong p = true /\ expanded (data p) = false /\ b = "ab" /\
   ~ integral (maxLength p) (Z.of_nat (String.length b))) /\
  (let p := with_maxLength (text "abc" 0) (Finite (5 # 2)) in
   let b := body (fun _ _ _ => "") (fun _ => true) (fun _ => Null) p (data p) in
   isLong p = true /\ expanded (data p) = false /\ b = "ab" /\
   ~ integral (maxLength p) (Z.of_nat (String.length b))).
Proof.
  split; cbv zeta; (split; [reflexivity|]); (split; [reflexivity|]);
    (split; [reflexivity|]); vm_compute; discriminate.
Qed.

Lemma truncation_witness :
  let p := text "a text of some length" 6 in
  expanded (data p) = false /\
  body (fun _ _ _ => "") (fun _ => true) (fun _ => Null) p (data p)
    = "a text" /\
  body (fun _ _ _ => "") (fun _ => true) (fun _ => Null) p (expand (data p))
    = "a text of some length".
Proof.
  intros p.
  destruct (truncation (fun _ _ _ => "") (fun _ => true) (fun _ => Null)
              p eq_refl) as (_ & _ & _ & H4 & H5 & _).
  split; [reflexivity|]. split.
  - apply (H4 (data p) 6%Z);
      [apply integral_number_of_Z | lia | reflexivity | reflexivity].
  - apply (H5 (data p)). reflexivity.
Defined.

Lemma concealed_policy_witness :
  let p := sensitive (text "s3cret" 640) true in
  concealed (fun _ => true) (fun _ => false) "hide-sensitive" p (data p) = true /\
  concealed (fun _ => true) (fun _ => false) "hide-sensitive" p
            (toggleStandAloneHide (data p)) = false.
Proof.
  intros p.
  destruct (concealed_policy (fun _ _ _ => "") (fun _ => true)
              (fun _ => Null) (fun _ => false) "hide-sensitive" p (data p))
    as (H1 & _ & _ & H4 & _).
  split.
  - apply H1. repeat split; reflexivity.
  - rewrite (H4 eq_refl eq_refl eq_refl).
    replace (concealed (fun _ => true) (fun _ => false) "hide-sensitive" p (data p))
      with true; [reflexivity|].
    symmetry. apply H1. repeat split; reflexivity.
Defined.

End DetailTextProofs.

(** ** Further properties of the detail text *)

Module DetailTextExtras.

Import DetailText DetailTextProofs.

Lemma prefix_substring (n : nat) (s : string) :
  String.prefix (String.substring 0 n s) s = true.
Proof.
  revert s. induction n as [|n IH]; intros s.
  - destruct s; reflexivity.
  - destruct s as [|c s]; [reflexivity|]. simpl.
    destruct (ascii_dec c c) as [_|Hne]; [apply IH | congruence].
Qed.

Lemma prefix_refl (s : string) : String.prefix s s = true.
Proof.
  induction s as [|c s IH]; [reflexivity|]. simpl.
  destruct (ascii_dec c c) as [_|Hne]; [exact IH | congruence].
Qed.

Lemma length_substring_min (n : nat) (s : string) :
  String.length (String.substring 0 n s) = Nat.min n (String.length s).
Proof.
  revert s. induction n as [|n IH]; intros s.
  - destruct s; reflexivity.
  - destruct s as [|c s]; [reflexivity|]. simpl. f_equal. apply IH.
Qed.

Lemma slice_from_start (s : string) (i : integer) :
  exists n : nat, slice s (Int 0) i = String.substring 0 n s.
Proof.
  unfold slice. replace (relative_index (Z.of_nat (String.length s)) (Int 0))
    with 0%Z by (simpl; rewrite Z.min_l by lia; reflexivity).
  eexists. reflexivity.
Qed.

Section Facts.

Variable i18n_t : string -> list (string * prim) -> bool -> string.
Variable asciiLike : string -> bool.
Variable binarySize : string -> prim.
Variable json : Type.
Variable JSON_parse : string -> option json.
Variable JSON_stringify : json -> string.
Variable prefs_get : string -> bool.
Variable HIDE_SENSITIVE : string.

(** X7: for content that is not binary the body is a prefix of the value,
    in every state and for every threshold, a negative one included: the
    body never shows anything that is not in the value. *)
Theorem body_is_prefix (p : props) (d : state) :
  isBinary asciiLike p = false ->
  String.prefix (body i18n_t asciiLike binarySize p d) (value p) = true.
Proof.
  intros Hb. unfold body. rewrite Hb.
  destruct (expanded d).
  - apply prefix_refl.
  - destruct (slice_from_start (value p)
                (ToIntegerOrInfinity (maxLength p))) as [n ->].
    apply prefix_substring.
Qed.

Lemma initial_expanded (p : props) :
  maxLength p <> NaN -> expanded (data p) = negb (isLong p).
Proof.
  unfold data, isLong, size, number_of_Z. simpl.
  destruct (maxLength p) as [|neg|q]; simpl.
  - congruence.
  - intros _. reflexivity.
  - intros _. rewrite negb_involutive. reflexivity.
Qed.

(** X9: with a threshold that is not [NaN], in every state the user can
    reach a text that is not long is expanded, and a text that is
    neither binary nor JSON is shown whole or comes with the link that
    expands it. Whatever the threshold, no action takes an expanded text
    back. *)
Theorem no_silent_truncation (p : props) (d : state) :
  reachable asciiLike json JSON_parse JSON_stringify p d ->
  (maxLength p <> NaN -> isLong p = false -> expanded d = true) /\
  (maxLength p <> NaN ->
   isBinary asciiLike p = false ->
   opt_truthy (jsonStr json JSON_parse JSON_stringify p) = false ->
   body i18n_t asciiLike binarySize p d = value p \/
   showMore asciiLike json JSON_parse JSON_stringify p d = true) /\
  (forall d' : state,
     action asciiLike json JSON_parse JSON_stringify p d d' ->
     expanded d = true -> expanded d' = true).
Proof.
  intros Hr.
  assert (Hinv : maxLength p <> NaN -> isLong p = false -> expanded d = true).
  { intros Hnan. unfold reachable in Hr. revert d Hr.
    apply (rtc_ind_r (fun d => isLong p = false -> expanded d = true)).
    - intros Hl. rewrite initial_expanded, Hl by assumption. reflexivity.
    - intros d1 d2 Hr1 Hstep IH Hl. destruct Hstep as [d0 Hshow | d0 Hshow].
      + unfold expand. simpl. unfold showMore in Hshow.
        apply andb_true_iff in Hshow as [_ Hne]. rewrite Hne. reflexivity.
      + simpl. apply IH, Hl. }
  split; [exact Hinv|]. split.
  - intros Hnan Hb Hj. unfold body, showMore. rewrite Hb, Hj.
    destruct (expanded d) eqn:He; [left; reflexivity|]. right.
    destruct (isLong p) eqn:Hl; [reflexivity|].
    specialize (Hinv Hnan eq_refl). congruence.
  - intros d' Hstep He. destruct Hstep as [d0 Hshow | d0 Hshow].
    + unfold showMore in Hshow. apply andb_true_iff in Hshow as [_ Hne].
      rewrite He in Hne. discriminate.
    + exact He.
Qed.

(** With the threshold [NaN] a text that is neither binary nor JSON
    starts with an empty body and without the link. *)
Example nan_threshold_hides_text :
  let p := with_maxLength (text "abc" 0) NaN in
  body i18n_t asciiLike binarySize p (data p) = "" /\
  showMore asciiLike json JSON_parse JSON_stringify p (data p) = false.
Proof.
  cbv zeta. unfold showMore. split; [reflexivity|].
  cbn [isBinary with_maxLength text binary negb andb].
  destruct (opt_truthy _); reflexivity.
Qed.

(** X10: where the sensitive button is rendered and the content is not
    binary, the button offers to show the text exactly when the text is
    concealed, and pressing it changes both. *)
Theorem sensitive_button_tells_state (p : props) (d : state) :
  showSensitive p = true -> isBinary asciiLike p = false ->
  (sensitiveIcon d = "icon-show" <->
   concealed asciiLike prefs_get HIDE_SENSITIVE p d = true) /\
  sensitiveAria i18n_t d =
    i18n_t (if concealed asciiLike prefs_get HIDE_SENSITIVE p d
            then "detailText.sensitive.show"
            else "detailText.sensitive.hide") [] false /\
  sensitiveIcon (toggleStandAloneHide d) <> sensitiveIcon d /\
  concealed asciiLike prefs_get HIDE_SENSITIVE p (toggleStandAloneHide d) =
    negb (concealed asciiLike prefs_get HIDE_SENSITIVE p d).
Proof.
  unfold showSensitive, concealed, hideSensitiveData, sensitiveIcon,
    sensitiveAria.
  intros Hs Hb. apply andb_true_iff in Hs as [-> ->]. rewrite Hb. simpl.
  destruct (standAloneHide d); simpl; repeat split; try reflexivity;
    try discriminate.
Qed.

End Facts.

Lemma body_is_prefix_witness :
  let p := text "abc" (-1) in
  String.prefix (body (fun _ _ _ => "") (fun _ => true) (fun _ => Null)
                      p (data p)) "abc" = true.
Proof.
  intros p.
  apply (body_is_prefix (fun _ _ _ => "") (fun _ => true) (fun _ => Null)
           p (data p)).
  reflexivity.
Defined.

Lemma no_silent_truncation_witness :
  let p := text "a text of some length" 6 in
  let d := expand (data p) in
  body (fun _ _ _ => "") (fun _ => true) (fun _ => Null) p d = value p \/
  showMore (fun _ => true) JSON.json JSON.parse JSON.stringify p d = true.
Proof.
  intros p d.
  assert (Hr : reachable (fun _ => true) JSON.json JSON.parse JSON.stringify
                 p d).
  { unfold reachable. eapply rtc_r; [apply rtc_refl|].
    apply act_expand. reflexivity. }
  apply (no_silent_truncation (fun _ _ _ => "") (fun _ => true)
           (fun _ => Null) JSON.json JSON.parse JSON.stringify p d Hr);
    [discriminate | reflexivity | reflexivity].
Defined.

Lemma sensitive_button_tells_state_witness :
  let p := sensitive (text "s3cret" 640) true in
  concealed (fun _ => true) (fun _ => false) "hide-sensitive" p
            (toggleStandAloneHide (data p)) =
    negb (concealed (fun _ => true) (fun _ => false) "hide-sensitive" p (data p)).
Proof.
  intros p.
  apply (sensitive_button_tells_state (fun _ _ _ => "") (fun _ => true)
           (fun _ => false) "hide-sensitive" p (data p));
    reflexivity.
Defined.

End DetailTextExtras.
